(** * finance_tracker: the deterministic transaction parser

    A shallow embedding of [mcp-server/tools/transaction_parser.py]
    (class [TransactionParser]) and of the two batch loops
    ([LLMService.parse_transaction_batch] in [tools/llm_service.py],
    [batch_process_transactions] in [main.py]), followed by the properties
    the specification states about them.

    Python values are represented as follows.
    - A [str] is the list of its Unicode code points ([N]).
    - [re] patterns are values of the type [re] below, run by a backtracking
      matcher with the priority order of CPython's [sre] engine (leftmost
      start, alternatives left to right, greedy repetition longest first,
      lazy repetition shortest first).
    - A [float] is a binary64 value.  An amount is a value of the Standard
      Library's IEEE 754 specification ([spec_float]): [float()] of a
      decimal literal is the binary64 nearest to it, infinity when it is
      too large.  The confidence score is computed with the primitive
      binary64 arithmetic ([PrimFloat]).
    - [datetime] values are calendar dates; the time of day is dropped, as
      [parse] keeps only [.date()].  The calendar is unbounded, i.e. the
      clock is assumed to lie strictly inside [datetime]'s range, where
      adding or subtracting one day cannot overflow.
    - What the interpreter brings and the repository does not define (the
      Unicode tables behind [str.lower], [\d] and [\w], [datetime.strptime],
      the iteration order of the two keyword [set]s) is a parameter, the
      class [PyRuntime]. *)

From Stdlib Require Import Ascii String.
From Stdlib Require Import List NArith ZArith QArith Bool.
From Stdlib Require Import Permutation Lia Floats.
Import ListNotations.

Local Open Scope N_scope.
Local Open Scope list_scope.

(** ** Strings *)

Definition char := N.
Definition str := list char.

(** UTF-8 decoding, used to write [str] literals. *)
Fixpoint utf8 (bs : list N) : str :=
  match bs with
  | [] => []
  | b :: t =>
    if b <? 128 then b :: utf8 t
    else
      match t with
      | [] => []
      | b1 :: t1 =>
        if b <? 224 then ((b - 192) * 64 + (b1 - 128)) :: utf8 t1
        else
          match t1 with
          | [] => []
          | b2 :: t2 =>
            if b <? 240
            then ((b - 224) * 4096 + (b1 - 128) * 64 + (b2 - 128)) :: utf8 t2
            else
              match t2 with
              | [] => []
              | b3 :: t3 =>
                ((b - 240) * 262144 + (b1 - 128) * 4096
                 + (b2 - 128) * 64 + (b3 - 128)) :: utf8 t3
              end
          end
      end
  end.

Definition u8 (s : string) : str :=
  utf8 (map N_of_ascii (list_ascii_of_string s)).
Arguments u8 s%_string.

Fixpoint str_eqb (a b : str) : bool :=
  match a, b with
  | [], [] => true
  | x :: a', y :: b' => (x =? y) && str_eqb a' b'
  | _, _ => false
  end.

(** [prefix in s] at the head of [s]. *)
Fixpoint starts_with (p s : str) : bool :=
  match p, s with
  | [], _ => true
  | x :: p', y :: s' => (x =? y) && starts_with p' s'
  | _ :: _, [] => false
  end.

(** Python's [k in s] on strings. *)
Fixpoint contains (k s : str) : bool :=
  starts_with k s ||
  match s with
  | [] => false
  | _ :: s' => contains k s'
  end.

(** [s.replace(",", "")] *)
Definition remove_commas (s : str) : str :=
  filter (fun c => negb (c =? 44)) s.

(** ** Character classes *)

Definition in_range (lo hi c : char) : bool := (lo <=? c) && (c <=? hi).

(** [[0-9]] *)
Definition ascii_digit (c : char) : bool := in_range 48 57 c.
(** [[a-z]] *)
Definition ascii_lower (c : char) : bool := in_range 97 122 c.
(** [[0-9,]] *)
Definition amount_char (c : char) : bool := ascii_digit c || (c =? 44).
(** [[₹$€£¥]] : U+20B9, U+0024, U+20AC, U+00A3, U+00A5 *)
Definition currency_glyph (c : char) : bool :=
  (c =? 8377) || (c =? 36) || (c =? 8364) || (c =? 163) || (c =? 165).

(** [\s] on [str] patterns and the characters removed by [str.strip()]:
    CPython's [_PyUnicode_IsWhitespace]. *)
Definition is_space (c : char) : bool :=
  in_range 9 13 c || in_range 28 32 c || (c =? 133) || (c =? 160)
  || (c =? 5760) || in_range 8192 8202 c || (c =? 8232) || (c =? 8233)
  || (c =? 8239) || (c =? 8287) || (c =? 12288).

(** [[a-z\s&]] *)
Definition hint_char (c : char) : bool :=
  ascii_lower c || is_space c || (c =? 38).

(** A literal ASCII lower-case letter under [re.IGNORECASE]: the engine
    compares the simple lower-case mapping of the text character with the
    pattern character, extended by the two equivalences that involve ASCII
    letters (dotless i with [i], long s with [s]).  U+0130 and the Kelvin
    sign U+212A are the non-ASCII characters whose simple lower case is an
    ASCII letter.  Any other pattern character matches itself only. *)
Definition ignorecase_eq (p c : char) : bool :=
  (c =? p)
  || (ascii_lower p && (c + 32 =? p))
  || ((p =? 105) && ((c =? 304) || (c =? 305)))
  || ((p =? 115) && (c =? 383))
  || ((p =? 107) && (c =? 8490)).

(** [str.strip()] *)
Fixpoint lstrip (s : str) : str :=
  match s with
  | c :: s' => if is_space c then lstrip s' else s
  | [] => []
  end.

Definition strip (s : str) : str := rev (lstrip (rev (lstrip s))).

(** ** Regular expressions *)

Inductive re : Type :=
| Eps : re
| Chr : (char -> bool) -> re
      (** one character: a literal or a class *)
| Cat : re -> re -> re
| Alt : re -> re -> re
      (** [a|b] *)
| Opt : re -> re
      (** [(?:a)?] *)
| Rep : bool -> nat -> option nat -> (char -> bool) -> re
      (** [Rep greedy lo hi cls]: [cls{lo,hi}]; [hi = None] is unbounded;
          [greedy = false] is the lazy form ([+?]) *)
| Grp : nat -> re -> re
      (** capturing group number [n] *)
| Eos : re
      (** [$] without [re.MULTILINE] *)
| Wb : (char -> bool) -> re
      (** [\b], relative to the given [\w] class *).

(** Matcher state: the character before the cursor, the text after it and
    the groups captured so far (latest first). *)
Record cursor := Cursor {
  prev : option char;
  rest : str;
  caps : list (nat * str)
}.

Definition orelse {A} (x y : option A) : option A :=
  match x with
  | Some _ => x
  | None => y
  end.

Section Matcher.
Context {A : Type}.

Fixpoint rep (greedy : bool) (cls : char -> bool) (k : cursor -> option A)
         (lo : nat) (hi : option nat) (pv : option char)
         (cp : list (nat * str)) (t : str) {struct t} : option A :=
  let stop := k (Cursor pv t cp) in
  let more :=
    match t with
    | [] => None
    | c :: t' =>
      if cls c then
        match hi with
        | Some O => None
        | Some (S h) => rep greedy cls k (Nat.pred lo) (Some h) (Some c) cp t'
        | None => rep greedy cls k (Nat.pred lo) None (Some c) cp t'
        end
      else None
    end in
  match lo with
  | S _ => more
  | O => if greedy then orelse more stop else orelse stop more
  end.

Definition opt_word (w : char -> bool) (c : option char) : bool :=
  match c with
  | Some x => w x
  | None => false
  end.

Fixpoint run (r : re) (k : cursor -> option A) (s : cursor) : option A :=
  match r with
  | Eps => k s
  | Chr p =>
    match rest s with
    | c :: t => if p c then k (Cursor (Some c) t (caps s)) else None
    | [] => None
    end
  | Cat a b => run a (run b k) s
  | Alt a b => orelse (run a k s) (run b k s)
  | Opt a => orelse (run a k s) (k s)
  | Rep g lo hi p => rep g p k lo hi (prev s) (caps s) (rest s)
  | Grp n a =>
    run a (fun e =>
             k (Cursor (prev e) (rest e)
                       ((n, firstn (length (rest s) - length (rest e)) (rest s))
                          :: caps e))) s
  | Eos =>
    match rest s with
    | [] => k s
    | [10] => k s
    | _ => None
    end
  | Wb w =>
    if xorb (opt_word w (prev s)) (opt_word w (hd_error (rest s)))
    then k s else None
  end.
End Matcher.

(** A match object: [group(0)], the captured groups and what follows the match. *)
Record rmatch := RMatch {
  group0 : str;
  groups : list (nat * str);
  after : str
}.

Fixpoint assoc (n : nat) (l : list (nat * str)) : option str :=
  match l with
  | [] => None
  | (m, v) :: l' => if Nat.eqb n m then Some v else assoc n l'
  end.

(** [m.group(n)] for [n >= 1]; [None] when the group did not take part. *)
Definition group (n : nat) (m : rmatch) : option str := assoc n (groups m).

(** The pattern matched at the cursor ([pv] is the character before it). *)
Definition match_at (r : re) (pv : option char) (t : str) : option rmatch :=
  match run r (fun e => Some e) (Cursor pv t []) with
  | Some e =>
    Some (RMatch (firstn (length t - length (rest e)) t) (caps e) (rest e))
  | None => None
  end.

(** [re.search]: the match at the leftmost position that has one. *)
Fixpoint search_from (r : re) (pv : option char) (t : str) : option rmatch :=
  match match_at r pv t with
  | Some m => Some m
  | None =>
    match t with
    | [] => None
    | c :: t' => search_from r (Some c) t'
    end
  end.

Definition search (r : re) (t : str) : option rmatch := search_from r None t.

(** [re.sub(r, repl, t)]: the non-overlapping matches, left to right, are
    replaced by [repl].  [skip] counts the characters of the current match
    still to be dropped.  No pattern of this program matches the empty
    string; an empty match is treated as no match at that position. *)
Fixpoint sub_from (r : re) (repl : str) (skip : nat) (pv : option char)
         (t : str) : str :=
  match t with
  | [] => []
  | c :: t' =>
    match skip with
    | S n => sub_from r repl n (Some c) t'
    | O =>
      match match_at r pv t with
      | Some m =>
        match length (group0 m) with
        | S n => repl ++ sub_from r repl n (Some c) t'
        | O => c :: sub_from r repl 0 (Some c) t'
        end
      | None => c :: sub_from r repl 0 (Some c) t'
      end
    end
  end.

Definition sub (r : re) (repl t : str) : str := sub_from r repl 0 None t.

(** Pattern builders. *)
Definition lit_with (eq : char -> char -> bool) (s : str) : re :=
  fold_right (fun c r => Cat (Chr (eq c)) r) Eps s.

(** a literal string *)
Definition lit (s : string) : re := lit_with N.eqb (u8 s).
Arguments lit s%_string.
(** a literal string under [re.IGNORECASE] *)
Definition lit_i (s : str) : re := lit_with ignorecase_eq s.

(** [a|b|c|...] *)
Fixpoint alts (l : list re) : re :=
  match l with
  | [] => Eps
  | [a] => a
  | a :: l' => Alt a (alts l')
  end.

Definition star := Rep true 0 None.
Definition plus := Rep true 1 None.
Definition lazy_plus := Rep false 1 None.
Definition times (lo hi : nat) := Rep true lo (Some hi).

(** ** Floats and dates *)

Fixpoint take_while (p : char -> bool) (s : str) : str :=
  match s with
  | c :: s' => if p c then c :: take_while p s' else []
  | [] => []
  end.

Fixpoint drop_while (p : char -> bool) (s : str) : str :=
  match s with
  | c :: s' => if p c then drop_while p s' else s
  | [] => []
  end.

(** The natural number written by a string of ASCII digits. *)
Definition digits_value (s : str) : N :=
  fold_left (fun a c => 10 * a + (c - 48)) s 0.

Definition is_nil {X} (l : list X) : bool :=
  match l with
  | [] => true
  | _ => false
  end.

(** [10 ** n] *)
Definition pow10 (n : nat) : positive := Nat.iter n (Pos.mul 10) 1%positive.

(** A binary64 value. *)
Definition binary64 := spec_float.

(** [0.0] *)
Definition zero64 : binary64 := S754_zero false.

(** The binary64 nearest to [m / d], ties to even, infinity on overflow:
    the correctly rounded quotient of the IEEE 754 specification. *)
Definition binary64_of_ratio (m : N) (d : positive) : binary64 :=
  match m with
  | N0 => zero64
  | Npos p => SFdiv 53 1024 (S754_finite false p 0) (S754_finite false d 0)
  end.

(** [float(s)] on the strings that reach it here (ASCII digits with an
    optional [.] and fractional digits); [None] is [ValueError], raised
    among others for the empty string.  The result is the binary64
    nearest to the decimal number that [s] writes. *)
Definition py_float (s : str) : option binary64 :=
  let ip := take_while ascii_digit s in
  match drop_while ascii_digit s with
  | [] =>
    if is_nil ip then None
    else Some (binary64_of_ratio (digits_value ip) 1)
  | c :: fp =>
    if (c =? 46) && forallb ascii_digit fp && negb (is_nil ip && is_nil fp)
    then Some (binary64_of_ratio (digits_value (ip ++ fp))
                                 (pow10 (List.length fp)))
    else None
  end.

(** [x > 0] *)
Definition positive64 (x : binary64) : bool := SFltb zero64 x.

(** [bool(x)], that is [x != 0.0] *)
Definition nonzero64 (x : binary64) : bool := negb (SFeqb x zero64).

Record datetime := DateTime {
  year : Z;
  month : Z;
  day : Z
}.

Definition is_leap (y : Z) : bool :=
  ((y mod 4 =? 0) && (negb (y mod 100 =? 0) || (y mod 400 =? 0)))%Z.

Definition days_in_month (y m : Z) : Z :=
  (if m =? 2 then (if is_leap y then 29 else 28)
   else if (m =? 4) || (m =? 6) || (m =? 9) || (m =? 11) then 30
   else 31)%Z.

Definition next_day (d : datetime) : datetime :=
  (if day d <? days_in_month (year d) (month d)
   then DateTime (year d) (month d) (day d + 1)
   else if month d <? 12 then DateTime (year d) (month d + 1) 1
   else DateTime (year d + 1) 1 1)%Z.

Definition prev_day (d : datetime) : datetime :=
  (if 1 <? day d then DateTime (year d) (month d) (day d - 1)
   else if 1 <? month d
   then DateTime (year d) (month d - 1) (days_in_month (year d) (month d - 1))
   else DateTime (year d - 1) 12 31)%Z.

(** [d + timedelta(days=n)] *)
Definition add_days (d : datetime) (n : Z) : datetime :=
  match n with
  | Z0 => d
  | Zpos p => Pos.iter next_day d p
  | Zneg p => Pos.iter prev_day d p
  end.

(** [d.replace(year=y)]; [None] is the [ValueError] raised when the day
    does not exist in year [y]. *)
Definition replace_year (d : datetime) (y : Z) : option datetime :=
  if (day d <=? days_in_month y (month d))%Z
  then Some (DateTime y (month d) (day d)) else None.

Definition digit_char (n : Z) : char := Z.to_N (48 + n mod 10).

(** [d.date().isoformat()], for the years 1 to 9999 of [datetime]. *)
Definition isoformat (d : datetime) : str :=
  [digit_char (year d / 1000); digit_char (year d / 100);
   digit_char (year d / 10); digit_char (year d); 45;
   digit_char (month d / 10); digit_char (month d); 45;
   digit_char (day d / 10); digit_char (day d)].

(** ** Python values and dictionaries *)

(** The values that occur in the records exchanged with the language model
    and the backend (what [json.loads] can return, and the fields of the
    parser's record). *)
#[local] Set Warnings "-register-all".
Inductive pyval : Type :=
| PNone
| PBool (b : bool)
| PInt (z : Z)
| PFloat (f : float)
| PFloat64 (x : binary64)
    (** a [float] given as a value of the IEEE 754 specification *)
| PStr (s : str)
| PList (l : list pyval)
| PDict (d : list (str * pyval)).

(** A [dict] with string keys, in insertion order. *)
Definition dict := list (str * pyval).

(** [d.get(k)] *)
Fixpoint dict_get (k : str) (d : dict) : option pyval :=
  match d with
  | [] => None
  | (k', v) :: d' => if str_eqb k k' then Some v else dict_get k d'
  end.

(** [d[k] = v] *)
Fixpoint dict_set (k : str) (v : pyval) (d : dict) : dict :=
  match d with
  | [] => [(k, v)]
  | (k', v') :: d' =>
    if str_eqb k k' then (k, v) :: d' else (k', v') :: dict_set k v d'
  end.

(** [bool(v)] *)
Definition truthy (v : pyval) : bool :=
  match v with
  | PNone => false
  | PBool b => b
  | PInt z => negb (z =? 0)%Z
  | PFloat f => negb (f =? 0)%float
  | PFloat64 x => nonzero64 x
  | PStr s => negb (is_nil s)
  | PList l => negb (is_nil l)
  | PDict d => negb (is_nil d)
  end.

(** [bool(d.get(k))] *)
Definition get_truthy (k : str) (d : dict) : bool :=
  match dict_get k d with
  | Some v => truthy v
  | None => false
  end.

(** [d.get(k, default)] *)
Definition get_default (k : str) (default : pyval) (d : dict) : pyval :=
  match dict_get k d with
  | Some v => v
  | None => default
  end.

Definition of_option {X} (f : X -> pyval) (o : option X) : pyval :=
  match o with
  | Some x => f x
  | None => PNone
  end.

(** ** [class TransactionParser] *)

Module TransactionParser.

(** The elements of the [set] literal [EXPENSE_KEYWORDS] (["charged"] is
    written twice there and is one element). *)
Definition EXPENSE_KEYWORDS : list str :=
  [u8 "spent"; u8 "paid"; u8 "bought"; u8 "purchased"; u8 "charged";
   u8 "cost"; u8 "expense"; u8 "spent money on"; u8 "spent on";
   u8 "paid for"; u8 "add expense"; u8 "debit"; u8 "out"; u8 "eating";
   u8 "eat"; u8 "ate"; u8 "delivery"].

Definition INCOME_KEYWORDS : list str :=
  [u8 "earned"; u8 "received"; u8 "got"; u8 "income"; u8 "salary";
   u8 "bonus"; u8 "refund"; u8 "credited"; u8 "credit"; u8 "earning";
   u8 "earn"; u8 "payment received"; u8 "transferred in"; u8 "deposit";
   u8 "deposited"; u8 "added"; u8 "received money"].

(** A [dict]: iterated in insertion order. *)
Definition DATE_KEYWORDS : list (str * Z) :=
  [(u8 "today", 0%Z); (u8 "yesterday", (-1)%Z); (u8 "tomorrow", 1%Z);
   (u8 "now", 0%Z); (u8 "today morning", 0%Z); (u8 "last night", (-1)%Z)].

(** What the Python runtime provides.  A [set] of strings is iterated in an
    order that is fixed for a process and otherwise unspecified: the two
    orders are parameters, constrained to enumerate the sets. *)
Class PyRuntime := {
  (** [str.lower] *)
  lower : str -> str;
  lower_empty : lower [] = [];
  (** [\d] on a [str] pattern *)
  unicode_decimal : char -> bool;
  (** [\w] on a [str] pattern *)
  unicode_word : char -> bool;
  (** [datetime.strptime(s, fmt)]; [None] is [ValueError] *)
  strptime : str -> str -> option datetime;
  (** [for keyword in EXPENSE_KEYWORDS] *)
  expense_iter : list str;
  expense_iter_perm : Permutation expense_iter EXPENSE_KEYWORDS;
  (** [for keyword in INCOME_KEYWORDS] *)
  income_iter : list str;
  income_iter_perm : Permutation income_iter INCOME_KEYWORDS
}.

(** [match.group(1)]; the group takes part in every match of the patterns
    that read it. *)
Definition group1 (m : rmatch) : str :=
  match group 1 m with
  | Some g => g
  | None => []
  end.

(** [[0-9,]+(?:\.[0-9]{2})?] *)
Definition number_re : re :=
  Cat (plus amount_char) (Opt (Cat (lit ".") (times 2 2 ascii_digit))).

Definition amount_patterns : list re :=
  [ (* [₹$€£¥]\s*([0-9,]+(?:\.[0-9]{2})?) *)
    Cat (Chr currency_glyph) (Cat (star is_space) (Grp 1 number_re));
    (* ([0-9,]+(?:\.[0-9]{2})?)\s*(?:inr|usd|eur|gbp|jpy) *)
    Cat (Grp 1 number_re)
        (Cat (star is_space)
             (alts [lit "inr"; lit "usd"; lit "eur"; lit "gbp"; lit "jpy"]));
    (* (?:amount|of|rupees|dollars|euros)\s*(?:is)?\s*:?\s*([0-9,]+(?:\.[0-9]{2})?) *)
    Cat (alts [lit "amount"; lit "of"; lit "rupees"; lit "dollars"; lit "euros"])
        (Cat (star is_space)
             (Cat (Opt (lit "is"))
                  (Cat (star is_space)
                       (Cat (Opt (lit ":"))
                            (Cat (star is_space) (Grp 1 number_re))))));
    (* ([0-9,]+(?:\.[0-9]{2})?) *)
    Grp 1 number_re ].

(** The loop of [parse_amount] over the patterns still to be tried. *)
Fixpoint first_amount (patterns : list re) (text_cleaned : str)
  : option binary64 :=
  match patterns with
  | [] => None
  | pattern :: patterns' =>
    match search pattern text_cleaned with
    | Some m =>
      let amount_str := remove_commas (group1 m) in
      match py_float amount_str with
      | Some amount =>
        if positive64 amount then Some amount
        else first_amount patterns' text_cleaned
      | None => first_amount patterns' text_cleaned
      end
    | None => first_amount patterns' text_cleaned
    end
  end.

(** The loop of [parse_date] over [DATE_KEYWORDS.items()]. *)
Fixpoint keyword_date (items : list (str * Z)) (now : datetime)
         (text_lower : str) : option datetime :=
  match items with
  | [] => None
  | (keyword, offset_days) :: items' =>
    if contains keyword text_lower then Some (add_days now offset_days)
    else keyword_date items' now text_lower
  end.

Definition date_formats : list str :=
  [u8 "%d %B"; u8 "%d %b"; u8 "%B %d"; u8 "%b %d"; u8 "%Y-%m-%d";
   u8 "%d/%m/%Y"].

(** [if truthy: ...] on the optional values of [parse]. *)
Definition amount_truthy (a : option binary64) : bool :=
  match a with
  | Some x => nonzero64 x
  | None => false
  end.

Definition str_truthy (s : option str) : bool :=
  match s with
  | Some (_ :: _) => true
  | _ => false
  end.

Definition date_truthy (d : option datetime) : bool :=
  match d with
  | Some _ => true
  | None => false
  end.

Record ParsedTransaction := {
  action : str;
  original_input : str;
  amount : option binary64;
  category_hint : option str;
  type : str;
  description : str;
  transaction_date : option str;
  payment_method : option str;
  confidence : float;
  clarification_needed : bool
}.

Section Parser.
Context {rt : PyRuntime}.

Definition parse_amount (text : str) : option binary64 :=
  let text_cleaned := lower text in
  first_amount amount_patterns text_cleaned.

Definition date_patterns : list re :=
  [ (* (\d{1,2})\s+([a-z]{3,9}) *)
    Cat (Grp 1 (times 1 2 unicode_decimal))
        (Cat (plus is_space) (Grp 2 (times 3 9 ascii_lower)));
    (* ([a-z]{3,9})\s+(\d{1,2}) *)
    Cat (Grp 1 (times 3 9 ascii_lower))
        (Cat (plus is_space) (Grp 2 (times 1 2 unicode_decimal)));
    (* (\d{4})-(\d{1,2})-(\d{1,2}) *)
    Cat (Grp 1 (times 4 4 unicode_decimal))
        (Cat (lit "-")
             (Cat (Grp 2 (times 1 2 unicode_decimal))
                  (Cat (lit "-") (Grp 3 (times 1 2 unicode_decimal)))));
    (* (\d{1,2})/(\d{1,2})/(\d{4}) *)
    Cat (Grp 1 (times 1 2 unicode_decimal))
        (Cat (lit "/")
             (Cat (Grp 2 (times 1 2 unicode_decimal))
                  (Cat (lit "/") (Grp 3 (times 4 4 unicode_decimal))))) ].

(** The loop over the formats; a [ValueError] of [strptime] or of
    [replace] moves on to the next format. *)
Fixpoint try_formats (now : datetime) (matched_str : str)
         (fmts : list str) : option datetime :=
  match fmts with
  | [] => None
  | fmt :: fmts' =>
    match strptime matched_str fmt with
    | Some parsed_date =>
      if (year parsed_date =? 1900)%Z then
        match replace_year parsed_date (year now) with
        | Some d => Some d
        | None => try_formats now matched_str fmts'
        end
      else Some parsed_date
    | None => try_formats now matched_str fmts'
    end
  end.

Fixpoint try_date_patterns (now : datetime) (text_lower : str)
         (patterns : list re) : option datetime :=
  match patterns with
  | [] => None
  | pattern :: patterns' =>
    match search pattern text_lower with
    | Some m =>
      match try_formats now (group0 m) date_formats with
      | Some d => Some d
      | None => try_date_patterns now text_lower patterns'
      end
    | None => try_date_patterns now text_lower patterns'
    end
  end.

(** [now] is the value of [datetime.now()] during the call. *)
Definition parse_date (now : datetime) (text : str) : option datetime :=
  let text_lower := lower text in
  match keyword_date DATE_KEYWORDS now text_lower with
  | Some d => Some d
  | None => try_date_patterns now text_lower date_patterns
  end.

(** [for keyword in keywords: if keyword in text_lower: return ...] *)
Fixpoint any_keyword_in (keywords : list str) (text_lower : str) : bool :=
  match keywords with
  | [] => false
  | keyword :: keywords' =>
    if contains keyword text_lower then true
    else any_keyword_in keywords' text_lower
  end.

Definition detect_type (text : str) : str :=
  let text_lower := lower text in
  if any_keyword_in income_iter text_lower then u8 "INCOME"
  else if any_keyword_in expense_iter text_lower then u8 "EXPENSE"
  else u8 "EXPENSE".

Definition day_words : re :=
  alts [lit "today"; lit "yesterday"; lit "tomorrow"].

Definition hint_patterns : list re :=
  [ (* for\s+(?:a\s+)?([a-z\s&]+?)(?:\s+(?:today|yesterday|tomorrow|on|at)|$) *)
    Cat (lit "for")
        (Cat (plus is_space)
             (Cat (Opt (Cat (lit "a") (plus is_space)))
                  (Cat (Grp 1 (lazy_plus hint_char))
                       (Alt (Cat (plus is_space)
                                 (alts [lit "today"; lit "yesterday";
                                        lit "tomorrow"; lit "on"; lit "at"]))
                            Eos))));
    (* on\s+([a-z\s&]+?)(?:\s+(?:today|yesterday|tomorrow)|$) *)
    Cat (lit "on")
        (Cat (plus is_space)
             (Cat (Grp 1 (lazy_plus hint_char))
                  (Alt (Cat (plus is_space) day_words) Eos)));
    (* (?:at|in)\s+([a-z\s&]+?)(?:\s+(?:today|yesterday|tomorrow)|$) *)
    Cat (alts [lit "at"; lit "in"])
        (Cat (plus is_space)
             (Cat (Grp 1 (lazy_plus hint_char))
                  (Alt (Cat (plus is_space) day_words) Eos)));
    (* (?:bought|spent|paid)\s+(?:a|an)?\s+([a-z\s&]+?)(?:\s+(?:for|on|at)|$) *)
    Cat (alts [lit "bought"; lit "spent"; lit "paid"])
        (Cat (plus is_space)
             (Cat (Opt (alts [lit "a"; lit "an"]))
                  (Cat (plus is_space)
                       (Cat (Grp 1 (lazy_plus hint_char))
                            (Alt (Cat (plus is_space)
                                      (alts [lit "for"; lit "on"; lit "at"]))
                                 Eos))))) ].

Fixpoint first_hint (patterns : list re) (text_lower : str) : option str :=
  match patterns with
  | [] => None
  | pattern :: patterns' =>
    match search pattern text_lower with
    | Some m =>
      let hint := strip (group1 m) in
      if negb (is_nil hint) && (1 <? List.length hint)%nat then Some hint
      else first_hint patterns' text_lower
    | None => first_hint patterns' text_lower
    end
  end.

Definition extract_category_hint (text : str) : option str :=
  let text_lower := lower text in
  first_hint hint_patterns text_lower.

(** [rf'\b{keyword}\b'] with [flags=re.IGNORECASE] *)
Definition keyword_re (keyword : str) : re :=
  Cat (Wb unicode_word) (Cat (lit_i keyword) (Wb unicode_word)).

(** The loop removing the transaction type keywords. *)
Fixpoint remove_keywords (keywords : list str) (description : str) : str :=
  match keywords with
  | [] => description
  | keyword :: keywords' =>
    remove_keywords keywords' (sub (keyword_re keyword) [] description)
  end.

(** The text left by the removals, before the fall-backs. *)
Definition clean_description (text : str) : str :=
  let description := text in
  (* [₹$€£¥]\s*[0-9,]+(?:\.[0-9]{2})? *)
  let description :=
    sub (Cat (Chr currency_glyph) (Cat (star is_space) number_re))
        [] description in
  (* [0-9,]+(?:\.[0-9]{2})? *)
  let description := sub number_re [] description in
  (* (?:today|yesterday|tomorrow|now|morning|night) *)
  let description :=
    sub (alts [lit "today"; lit "yesterday"; lit "tomorrow"; lit "now";
               lit "morning"; lit "night"]) [] description in
  (* \d{1,2}\s+(?:Jan|Feb|Mar|Apr|May|Jun|Jul|Aug|Sep|Oct|Nov|Dec) *)
  let description :=
    sub (Cat (times 1 2 unicode_decimal)
             (Cat (plus is_space)
                  (alts [lit "Jan"; lit "Feb"; lit "Mar"; lit "Apr";
                         lit "May"; lit "Jun"; lit "Jul"; lit "Aug";
                         lit "Sep"; lit "Oct"; lit "Nov"; lit "Dec"])))
        [] description in
  let description :=
    remove_keywords (expense_iter ++ income_iter) description in
  (* \b(for|on|at|in|to|from)\b, re.IGNORECASE *)
  let description :=
    sub (Cat (Wb unicode_word)
             (Cat (Grp 1 (alts [lit_i (u8 "for"); lit_i (u8 "on");
                                lit_i (u8 "at"); lit_i (u8 "in");
                                lit_i (u8 "to"); lit_i (u8 "from")]))
                  (Wb unicode_word)))
        [] description in
  (* re.sub(r'\s+', " ", description).strip() *)
  strip (sub (plus is_space) (u8 " ") description).

Definition extract_description (text : str) (category_hint : option str)
  : str :=
  let description := clean_description text in
  (* if not description and category_hint: description = category_hint *)
  let description :=
    match category_hint with
    | Some hint =>
      if is_nil description && negb (is_nil hint) then hint
      else description
    | None => description
    end in
  (* return description or "Transaction" *)
  if is_nil description then u8 "Transaction" else description.

#[local] Set Warnings "-inexact-float".

Definition parse (now : datetime) (text : str) : ParsedTransaction :=
  let amount := parse_amount text in
  let transaction_date := parse_date now text in
  let transaction_type := detect_type text in
  let category_hint := extract_category_hint text in
  let description := extract_description text category_hint in
  let confidence := 0.0%float in
  let confidence :=
    if amount_truthy amount then (confidence + 0.4)%float else confidence in
  let confidence :=
    if str_truthy category_hint then (confidence + 0.3)%float
    else confidence in
  let confidence :=
    if date_truthy transaction_date then (confidence + 0.2)%float
    else confidence in
  let confidence :=
    if negb (is_nil description)
       && negb (str_eqb description (u8 "Transaction"))
    then (confidence + 0.1)%float else confidence in
  {| action := u8 "CREATE";
     original_input := text;
     amount := amount;
     category_hint := category_hint;
     type := transaction_type;
     description := description;
     transaction_date :=
       match transaction_date with
       | Some d => Some (isoformat d)
       | None => None
       end;
     payment_method := None;
     (* min(confidence, 1.0) *)
     confidence :=
       if (1.0 <? confidence)%float then 1.0%float else confidence;
     clarification_needed :=
       if amount_truthy amount then (confidence <? 0.5)%float else true |}.
End Parser.

(** The [dict] that [parse] returns, [r] holding its entries. *)
Definition to_dict (r : ParsedTransaction) : dict :=
  [(u8 "action", PStr (action r));
   (u8 "original_input", PStr (original_input r));
   (u8 "amount", of_option PFloat64 (amount r));
   (u8 "category_hint", of_option PStr (category_hint r));
   (u8 "type", PStr (type r));
   (u8 "description", PStr (description r));
   (u8 "transaction_date", of_option PStr (transaction_date r));
   (u8 "payment_method", of_option PStr (payment_method r));
   (u8 "confidence", PFloat (confidence r));
   (u8 "clarification_needed", PBool (clarification_needed r))].

End TransactionParser.

(** ** The raise sites of the parser

    The same functions with every operation that can raise written out:
    a call either returns a value or raises, a [try] passes on what its
    [except] clauses do not name, and code outside a [try] passes on
    everything.  The operations of [re], [str] and [logging] used here do
    not raise. *)

Module Raising.
Import TransactionParser.

Inductive exception :=
| ValueError
| AttributeError.

Inductive outcome (A : Type) :=
| Returns (a : A)
| Raises (e : exception).
Arguments Returns {A} a.
Arguments Raises {A} e.

(** [float(s)] *)
Definition float_of (s : str) : outcome binary64 :=
  match py_float s with
  | Some x => Returns x
  | None => Raises ValueError
  end.

(** [match.group(1)] is [None] when the group did not take part in the
    match; a method call on [None] raises [AttributeError]. *)
Definition group1_method (f : str -> str) (m : rmatch) : outcome str :=
  match group 1 m with
  | Some g => Returns (f g)
  | None => Raises AttributeError
  end.

Section Parser.
Context {rt : PyRuntime}.

(** [datetime.strptime(s, fmt)] *)
Definition strptime_of (s fmt : str) : outcome datetime :=
  match strptime s fmt with
  | Some d => Returns d
  | None => Raises ValueError
  end.

(** [d.replace(year=y)] *)
Definition replace_year_of (d : datetime) (y : Z) : outcome datetime :=
  match replace_year d y with
  | Some d' => Returns d'
  | None => Raises ValueError
  end.

(** The loop of [parse_amount]: the group is read outside the [try], the
    conversion inside it, and [except ValueError: continue] names
    [ValueError] only. *)
Fixpoint first_amount (patterns : list re) (text_cleaned : str)
  : outcome (option binary64) :=
  match patterns with
  | [] => Returns None
  | pattern :: patterns' =>
    match search pattern text_cleaned with
    | Some m =>
      match group1_method remove_commas m with
      | Raises e => Raises e
      | Returns amount_str =>
        match float_of amount_str with
        | Returns amount =>
          if positive64 amount then Returns (Some amount)
          else first_amount patterns' text_cleaned
        | Raises ValueError => first_amount patterns' text_cleaned
        | Raises e => Raises e
        end
      end
    | None => first_amount patterns' text_cleaned
    end
  end.

Definition parse_amount (text : str) : outcome (option binary64) :=
  let text_cleaned := lower text in
  first_amount amount_patterns text_cleaned.

(** The body of the inner [try] for one format. *)
Definition try_format (now : datetime) (matched_str fmt : str)
  : outcome datetime :=
  match strptime_of matched_str fmt with
  | Raises e => Raises e
  | Returns parsed_date =>
    if (year parsed_date =? 1900)%Z
    then replace_year_of parsed_date (year now)
    else Returns parsed_date
  end.

(** The loop over the formats: [except ValueError: continue]. *)
Fixpoint try_formats (now : datetime) (matched_str : str) (fmts : list str)
  : outcome (option datetime) :=
  match fmts with
  | [] => Returns None
  | fmt :: fmts' =>
    match try_format now matched_str fmt with
    | Returns d => Returns (Some d)
    | Raises ValueError => try_formats now matched_str fmts'
    | Raises e => Raises e
    end
  end.

(** The loop over the date patterns: [except Exception: continue]. *)
Fixpoint try_date_patterns (now : datetime) (text_lower : str)
         (patterns : list re) : outcome (option datetime) :=
  match patterns with
  | [] => Returns None
  | pattern :: patterns' =>
    match search pattern text_lower with
    | Some m =>
      match try_formats now (group0 m) date_formats with
      | Returns (Some d) => Returns (Some d)
      | Returns None => try_date_patterns now text_lower patterns'
      | Raises _ => try_date_patterns now text_lower patterns'
      end
    | None => try_date_patterns now text_lower patterns'
    end
  end.

Definition parse_date (now : datetime) (text : str)
  : outcome (option datetime) :=
  let text_lower := lower text in
  match keyword_date DATE_KEYWORDS now text_lower with
  | Some d => Returns (Some d)
  | None => try_date_patterns now text_lower date_patterns
  end.

(** The loop of [extract_category_hint]: [match.group(1).strip()] is not
    inside a [try]. *)
Fixpoint first_hint (patterns : list re) (text_lower : str)
  : outcome (option str) :=
  match patterns with
  | [] => Returns None
  | pattern :: patterns' =>
    match search pattern text_lower with
    | Some m =>
      match group1_method strip m with
      | Raises e => Raises e
      | Returns hint =>
        if negb (is_nil hint) && (1 <? List.length hint)%nat
        then Returns (Some hint)
        else first_hint patterns' text_lower
      end
    | None => first_hint patterns' text_lower
    end
  end.

Definition extract_category_hint (text : str) : outcome (option str) :=
  let text_lower := lower text in
  first_hint hint_patterns text_lower.

#[local] Set Warnings "-inexact-float".

(** [parse]: an exception of any of the calls is passed on. *)
Definition parse (now : datetime) (text : str) : outcome ParsedTransaction :=
  match parse_amount text with
  | Raises e => Raises e
  | Returns amount =>
    match parse_date now text with
    | Raises e => Raises e
    | Returns transaction_date =>
      let transaction_type := detect_type text in
      match extract_category_hint text with
      | Raises e => Raises e
      | Returns category_hint =>
        let description := extract_description text category_hint in
        let confidence := 0.0%float in
        let confidence :=
          if amount_truthy amount then (confidence + 0.4)%float
          else confidence in
        let confidence :=
          if str_truthy category_hint then (confidence + 0.3)%float
          else confidence in
        let confidence :=
          if date_truthy transaction_date then (confidence + 0.2)%float
          else confidence in
        let confidence :=
          if negb (is_nil description)
             && negb (str_eqb description (u8 "Transaction"))
          then (confidence + 0.1)%float else confidence in
        Returns
          {| action := u8 "CREATE";
             original_input := text;
             amount := amount;
             category_hint := category_hint;
             type := transaction_type;
             description := description;
             transaction_date :=
               match transaction_date with
               | Some d => Some (isoformat d)
               | None => None
               end;
             payment_method := None;
             confidence :=
               if (1.0 <? confidence)%float then 1.0%float else confidence;
             clarification_needed :=
               if amount_truthy amount then (confidence <? 0.5)%float
               else true |}
      end
    end
  end.
End Parser.

End Raising.

(** ** The batch loops *)

Module LLMService.
Section Batch.
(** The parsed record and the per-item parser [parse_transaction_text].
    It asks a remote model, whose answers are sampled and which may be
    unreachable at one moment and not at the next: a call is made in a
    state of the world (the remote model and whatever else the call
    reads) and leaves a new state.  It never raises (it returns a
    fall-back record on any exception). *)
Context {World Result : Type}.
Variable parse_transaction_text : World -> str -> Result * World.

(** The [for] loop, with [results] the list built so far. *)
Fixpoint batch_loop (w : World) (inputs : list str) (results : list Result)
  : list Result * World :=
  match inputs with
  | [] => (results, w)
  | text :: inputs' =>
    let (result, w') := parse_transaction_text w text in
    batch_loop w' inputs' (results ++ [result])
  end.

Definition parse_transaction_batch (w : World) (inputs : list str)
  : list Result * World :=
  batch_loop w inputs [].
End Batch.

Section ParseText.
Context {Exn : Type}.

(** [tool_call.function.name] and [tool_call.function.arguments] *)
Record tool_call := ToolCall {
  function_name : str;
  function_arguments : str
}.

(** The collaborators.  [chat content] is the completion request for the
    user message [content] together with the reading of
    [response.choices[0].message.tool_calls]: the tool calls (none when
    the attribute is empty or [None]) or the exception raised on the way.
    [type_error v] is the [TypeError] raised by an item assignment on a
    value that is not a [dict]. *)
Variable chat : str -> list tool_call + Exn.
Variable json_loads : str -> pyval + Exn.
Variable type_error : pyval -> Exn.
Variable str_of_exn : Exn -> str.

(** The record returned when no tool call could be used. *)
Definition fallback (text error : str) : dict :=
  [(u8 "action", PStr (u8 "CREATE"));
   (u8 "original_input", PStr text);
   (u8 "amount", PNone);
   (u8 "category_hint", PNone);
   (u8 "type", PStr (u8 "EXPENSE"));
   (u8 "description", PStr text);
   (u8 "transaction_date", PNone);
   (u8 "confidence", PFloat 0%float);
   (u8 "clarification_needed", PBool true);
   (u8 "error", PStr error)].

(** The loop over the tool calls: [None] when it ends without returning,
    otherwise the record returned or the exception raised by the first
    call named [parse_transaction]. *)
Fixpoint tool_loop (text : str) (tool_calls : list tool_call)
  : option (dict + Exn) :=
  match tool_calls with
  | [] => None
  | call :: tool_calls' =>
    if str_eqb (function_name call) (u8 "parse_transaction") then
      match json_loads (function_arguments call) with
      | inl (PDict parsed_data) =>
        let parsed_data :=
          dict_set (u8 "action") (PStr (u8 "CREATE")) parsed_data in
        let parsed_data :=
          dict_set (u8 "original_input") (PStr text) parsed_data in
        Some (inl parsed_data)
      | inl v => Some (inr (type_error v))
      | inr e => Some (inr e)
      end
    else tool_loop text tool_calls'
  end.

Definition parse_transaction_text (text : str) : dict :=
  match chat (u8 "Parse this transaction: " ++ text) with
  | inl tool_calls =>
    match tool_loop text tool_calls with
    | Some (inl parsed_data) => parsed_data
    | Some (inr e) => fallback text (str_of_exn e)
    | None =>
      fallback text (u8 "Could not parse transaction with GLM-5")
    end
  | inr e => fallback text (str_of_exn e)
  end.
End ParseText.
End LLMService.

Module Main.
Section Batch.
(** [process_transaction] either returns a response or raises; [str(e)]
    is the message of the exception. *)
Context {Request Response Exn : Type}.
Variable process_transaction : Request -> Response + Exn.
Variable input : Request -> str.
Variable str_of_exn : Exn -> str.

Inductive batch_item :=
| Processed (result : Response)
| Failed (error : str) (original_input : str).

Fixpoint batch_loop (requests_list : list Request)
         (results : list batch_item) : list batch_item :=
  match requests_list with
  | [] => results
  | req :: requests' =>
    match process_transaction req with
    | inl result => batch_loop requests' (results ++ [Processed result])
    | inr e =>
      batch_loop requests' (results ++ [Failed (str_of_exn e) (input req)])
    end
  end.

Definition batch_process_transactions (requests_list : list Request)
  : list batch_item :=
  batch_loop requests_list [].

(** The entry that stands for [req] in the result. *)
Definition batch_entry (req : Request) : batch_item :=
  match process_transaction req with
  | inl result => Processed result
  | inr e => Failed (str_of_exn e) (input req)
  end.
End Batch.

Section BatchInWorld.
(** The same loop with the state of the world written out:
    [process_transaction] verifies the token with the backend, may ask
    the remote model and may post to the backend, so a call is made in a
    state and leaves a new one. *)
Context {World Request Response Exn : Type}.
Variable process_transaction : World -> Request -> (Response + Exn) * World.
Variable input : Request -> str.
Variable str_of_exn : Exn -> str.

(** The entry that stands for [req], processed in the state [w]. *)
Definition batch_entry_in (w : World) (req : Request)
  : batch_item (Response := Response) * World :=
  match process_transaction w req with
  | (inl result, w') => (Processed result, w')
  | (inr e, w') => (Failed (str_of_exn e) (input req), w')
  end.

Fixpoint batch_loop_in (w : World) (requests_list : list Request)
         (results : list batch_item) : list batch_item * World :=
  match requests_list with
  | [] => (results, w)
  | req :: requests' =>
    match process_transaction w req with
    | (inl result, w') =>
      batch_loop_in w' requests' (results ++ [Processed result])
    | (inr e, w') =>
      batch_loop_in w' requests'
                    (results ++ [Failed (str_of_exn e) (input req)])
    end
  end.

Definition batch_process_transactions_in (w : World)
           (requests_list : list Request) : list batch_item * World :=
  batch_loop_in w requests_list [].
End BatchInWorld.

Section Process.
Context {rt : TransactionParser.PyRuntime} {Backend Exn : Type}.

(** [ProcessMCPRequest] *)
Record ProcessMCPRequest := {
  req_input : str;
  jwt_token : str;
  use_llm : bool
}.

(** The collaborators: the clock, those of the language model service
    and the backend client.  [verify_token] answers [False] on a request
    error by itself; any other exception is passed on. *)
Variable now : datetime.
Variable chat : str -> list LLMService.tool_call + Exn.
Variable json_loads : str -> pyval + Exn.
Variable type_error : pyval -> Exn.
Variable verify_token : str -> bool + Exn.
Variable process_mcp_transaction : dict -> str -> Backend + Exn.
Variable str_of_exn : Exn -> str.

(** [llm_service.parse_transaction_text] *)
Definition llm_parse : str -> dict :=
  LLMService.parse_transaction_text chat json_loads type_error str_of_exn.

(** The requests sent to the backend while a request is processed. *)
Inductive backend_call :=
| VerifyToken (token : str)
| PostTransaction (mcp_request : dict) (token : str).

(** How [process_transaction] ends. *)
Inductive outcome :=
| Unauthorized
    (** raises [HTTPException(401, "Invalid or expired token")] *)
| NeedDetails (confidence : pyval) (original_input : str)
    (** returns the [success: False] record asking for more details *)
| FromBackend (backend_response : Backend)
    (** returns the response of the backend *)
| ServerError (message : str) (original_input : str)
    (** returns the [JSONResponse] with status 500 *).

Definition process_transaction (request : ProcessMCPRequest)
  : outcome * list backend_call :=
  let token := jwt_token request in
  match verify_token token with
  | inr e => (ServerError (str_of_exn e) (req_input request),
              [VerifyToken token])
  | inl false => (Unauthorized, [VerifyToken token])
  | inl true =>
    let parsed_data :=
      if use_llm request then llm_parse (req_input request)
      else TransactionParser.to_dict
             (TransactionParser.parse now (req_input request)) in
    if get_truthy (u8 "clarification_needed") parsed_data
       && negb (get_truthy (u8 "amount") parsed_data)
    then (NeedDetails (get_default (u8 "confidence") (PInt 0) parsed_data)
                      (req_input request),
          [VerifyToken token])
    else
      match process_mcp_transaction parsed_data token with
      | inl backend_response =>
        (FromBackend backend_response,
         [VerifyToken token; PostTransaction parsed_data token])
      | inr e =>
        (ServerError (str_of_exn e) (req_input request),
         [VerifyToken token; PostTransaction parsed_data token])
      end
  end.
End Process.
End Main.

(** ** [class BackendClient]: the address of the token check *)

Module BackendClient.

(** The part of [s] before the last occurrence of [sep]; [None] when
    [sep], which is not empty, does not occur. *)
Fixpoint before_last (sep s : str) : option str :=
  match s with
  | [] => None
  | c :: s' =>
    match before_last sep s' with
    | Some p => Some (c :: p)
    | None => if starts_with sep s then Some [] else None
    end
  end.

(** [s.rsplit(sep, 1)[0]] *)
Definition rsplit_head (sep s : str) : str :=
  match before_last sep s with
  | Some p => p
  | None => s
  end.

(** The [url] of [verify_token]:
    [f"{self.base_url.rsplit('/api', 1)[0]}/api/auth/verify"] *)
Definition verify_url (base_url : str) : str :=
  rsplit_head (u8 "/api") base_url ++ u8 "/api/auth/verify".

End BackendClient.

(** ** A concrete runtime

    Used to run the parser on examples.  It is CPython's behaviour in the C
    locale on text made of Latin-1 characters and the currency glyphs; the
    keyword sets are iterated in the order in which they are written. *)

Module CRuntime.

Definition c_lower_char (c : char) : char :=
  if in_range 65 90 c || (in_range 192 222 c && negb (c =? 215))
  then c + 32 else c.

Definition c_lower (s : str) : str := map c_lower_char s.

Definition c_decimal (c : char) : bool := ascii_digit c.

Definition c_word (c : char) : bool :=
  ascii_digit c || in_range 65 90 c || ascii_lower c || (c =? 95)
  || (c =? 170) || (c =? 178) || (c =? 179) || (c =? 181) || (c =? 185)
  || (c =? 186) || in_range 188 190 c
  || (in_range 192 255 c && negb (c =? 215) && negb (c =? 247)).

Definition month_names : list str :=
  [u8 "january"; u8 "february"; u8 "march"; u8 "april"; u8 "may";
   u8 "june"; u8 "july"; u8 "august"; u8 "september"; u8 "october";
   u8 "november"; u8 "december"].

Definition month_abbrs : list str :=
  [u8 "jan"; u8 "feb"; u8 "mar"; u8 "apr"; u8 "may"; u8 "jun"; u8 "jul";
   u8 "aug"; u8 "sep"; u8 "oct"; u8 "nov"; u8 "dec"].

(** The regular expression [_strptime] builds for a directive. *)
Definition directive_re (c : char) : re :=
  if c =? 100 then (* %d : 3[0-1]|[1-2]\d|0[1-9]|[1-9]| [1-9] *)
    Grp 1 (alts [Cat (lit "3") (Chr (in_range 48 49));
                 Cat (Chr (in_range 49 50)) (Chr c_decimal);
                 Cat (lit "0") (Chr (in_range 49 57));
                 Chr (in_range 49 57);
                 Cat (lit " ") (Chr (in_range 49 57))])
  else if c =? 109 then (* %m : 1[0-2]|0[1-9]|[1-9] *)
    Grp 2 (alts [Cat (lit "1") (Chr (in_range 48 50));
                 Cat (lit "0") (Chr (in_range 49 57));
                 Chr (in_range 49 57)])
  else if c =? 89 then (* %Y : \d\d\d\d *)
    Grp 3 (times 4 4 c_decimal)
  else if c =? 66 then (* %B : the month names, longest first *)
    Grp 4 (alts (map lit_i
                     [u8 "september"; u8 "february"; u8 "november";
                      u8 "december"; u8 "january"; u8 "october";
                      u8 "august"; u8 "march"; u8 "april"; u8 "june";
                      u8 "july"; u8 "may"]))
  else if c =? 98 then (* %b *)
    Grp 5 (alts (map lit_i month_abbrs))
  else Chr (fun _ => false).

Fixpoint strptime_re (fmt : str) : re :=
  match fmt with
  | [] => Eps
  | c :: fmt' =>
    if c =? 37 then
      match fmt' with
      | d :: fmt'' => Cat (directive_re d) (strptime_re fmt'')
      | [] => Chr (fun _ => false)
      end
    else if is_space c then Cat (plus is_space) (strptime_re fmt')
    else Cat (Chr (ignorecase_eq c)) (strptime_re fmt')
  end.

Fixpoint index_of (x : str) (l : list str) (i : Z) : option Z :=
  match l with
  | [] => None
  | y :: l' => if str_eqb x y then Some i else index_of x l' (i + 1)%Z
  end.

Definition int_of (g : str) : Z :=
  Z.of_N (digits_value (drop_while is_space g)).

Definition c_strptime (s fmt : str) : option datetime :=
  match match_at (strptime_re fmt) None s with
  | None => None
  | Some m =>
    if is_nil (after m) then
      let y := match group 3 m with
               | Some g => int_of g
               | None => 1900%Z
               end in
      let mo :=
        match group 4 m, group 5 m, group 2 m with
        | Some g, _, _ => index_of (c_lower g) month_names 1
        | None, Some g, _ => index_of (c_lower g) month_abbrs 1
        | None, None, Some g => Some (int_of g)
        | None, None, None => Some 1%Z
        end in
      let d := match group 1 m with
               | Some g => int_of g
               | None => 1%Z
               end in
      match mo with
      | Some mo =>
        if ((1 <=? y) && (y <=? 9999) && (1 <=? mo) && (mo <=? 12)
            && (1 <=? d) && (d <=? days_in_month y mo))%Z
        then Some (DateTime y mo d) else None
      | None => None
      end
    else None
  end.

#[export] Instance runtime : TransactionParser.PyRuntime := {|
  TransactionParser.lower := c_lower;
  TransactionParser.lower_empty := eq_refl;
  TransactionParser.unicode_decimal := c_decimal;
  TransactionParser.unicode_word := c_word;
  TransactionParser.strptime := c_strptime;
  TransactionParser.expense_iter := TransactionParser.EXPENSE_KEYWORDS;
  TransactionParser.expense_iter_perm := Permutation_refl _;
  TransactionParser.income_iter := TransactionParser.INCOME_KEYWORDS;
  TransactionParser.income_iter_perm := Permutation_refl _
|}.

(** The same runtime with the two sets iterated in the opposite order. *)
#[export] Instance runtime_reversed : TransactionParser.PyRuntime := {|
  TransactionParser.lower := c_lower;
  TransactionParser.lower_empty := eq_refl;
  TransactionParser.unicode_decimal := c_decimal;
  TransactionParser.unicode_word := c_word;
  TransactionParser.strptime := c_strptime;
  TransactionParser.expense_iter := rev TransactionParser.EXPENSE_KEYWORDS;
  TransactionParser.expense_iter_perm :=
    Permutation_sym (Permutation_rev TransactionParser.EXPENSE_KEYWORDS);
  TransactionParser.income_iter := rev TransactionParser.INCOME_KEYWORDS;
  TransactionParser.income_iter_perm :=
    Permutation_sym (Permutation_rev TransactionParser.INCOME_KEYWORDS)
|}.

(** The clock of the examples: 3 November 2026. *)
Definition clock : datetime := DateTime 2026 11 3.

(** The parser on a literal, with this runtime and clock. *)
Definition run_parse (text : string) : TransactionParser.ParsedTransaction :=
  TransactionParser.parse (rt := runtime) clock (u8 text).

End CRuntime.

(** ** Reference scanners

    Written from the specification's words, to be compared with the
    patterns of the source. *)

Module Reference.

(** "an optional two-digit fractional part" *)
Definition fraction_of (s : str) : str :=
  match s with
  | dot :: d1 :: d2 :: _ =>
    if (dot =? 46) && ascii_digit d1 && ascii_digit d2 then [dot; d1; d2]
    else []
  | _ => []
  end.

(** "a number with optional thousands separators and an optional two-digit
    fractional part", read greedily at the head of [s]; empty when [s] does
    not start with a digit or a separator. *)
Definition numeric_token (s : str) : str :=
  match take_while amount_char s with
  | [] => []
  | ds => ds ++ fraction_of (drop_while amount_char s)
  end.

(** "a currency glyph immediately followed by optional whitespace and a
    number", at the head of [t]: the number. *)
Definition glyph_number (t : str) : option str :=
  match t with
  | c :: b =>
    if currency_glyph c then
      match numeric_token (drop_while is_space b) with
      | [] => None
      | tok => Some tok
      end
    else None
  | [] => None
  end.

(** The number of the leftmost such occurrence in [t]. *)
Fixpoint leftmost_glyph_number (t : str) : option str :=
  match glyph_number t with
  | Some tok => Some tok
  | None =>
    match t with
    | [] => None
    | _ :: t' => leftmost_glyph_number t'
    end
  end.

(** "add 0.4 if amount is present, 0.3 if category hint is present, 0.2 if
    a date was found, 0.1 if the description is non-placeholder; clamp the
    sum to at most 1.0" *)
Definition present {X} (o : option X) : bool :=
  match o with
  | Some _ => true
  | None => false
  end.

#[local] Set Warnings "-inexact-float".

Definition score (has_amount has_hint has_date has_description : bool)
  : float :=
  let sum :=
    (0.0 + (if has_amount then 0.4 else 0.0)
     + (if has_hint then 0.3 else 0.0)
     + (if has_date then 0.2 else 0.0)
     + (if has_description then 0.1 else 0.0))%float in
  if (sum <=? 1.0)%float then sum else 1.0%float.

End Reference.

Import TransactionParser.

(** ** Items handled in turn

    Written from the specification's words, to be compared with the
    loops of the source. *)

(** "applies the full pipeline independently to each input in a sequence,
    preserving order": each item is handled in turn, in the state left by
    the items before it. *)
Fixpoint each_in_turn {W X Y : Type} (f : W -> X -> Y * W) (w : W)
         (xs : list X) : list Y * W :=
  match xs with
  | [] => ([], w)
  | x :: xs' =>
    let (y, w') := f w x in
    let (ys, w'') := each_in_turn f w' xs' in
    (y :: ys, w'')
  end.

(** The state in which the item at index [i] is handled. *)
Fixpoint state_before {W X Y : Type} (f : W -> X -> Y * W) (w : W)
         (xs : list X) (i : nat) : W :=
  match i, xs with
  | S i', x :: xs' => state_before f (snd (f w x)) xs' i'
  | _, _ => w
  end.

(** The statement "the element at every index equals the result of the
    single-input parse applied to the input at that index", for one
    parser, one state and one sequence. *)
Definition batch_equals_single_claim {World Result : Type}
           (p : World -> str -> Result * World) (w : World)
           (inputs : list str) : Prop :=
  forall i text,
    nth_error inputs i = Some text ->
    nth_error (fst (LLMService.parse_transaction_batch p w inputs)) i
    = Some (fst (p w text)).

(** ** Auxiliary definitions for the statements *)

(** The character before the cursor after [xs] has been consumed. *)
Definition advance (pv : option char) (xs : str) : option char :=
  fold_left (fun _ c => Some c) xs pv.

(** [[₹$€£¥]\s*([0-9,]+(?:\.[0-9]{2})?)], the head of [amount_patterns]. *)
Definition glyph_re : re :=
  Cat (Chr currency_glyph) (Cat (star is_space) (Grp 1 number_re)).

(** The decimal number written by ASCII digits with an optional point
    and fractional digits. *)
Definition decimal_value (s : str) : option Q :=
  let ip := take_while ascii_digit s in
  match drop_while ascii_digit s with
  | [] => if is_nil ip then None else Some (Z.of_N (digits_value ip) # 1)
  | c :: fp =>
    if (c =? 46) && forallb ascii_digit fp && negb (is_nil ip && is_nil fp)
    then Some (Z.of_N (digits_value (ip ++ fp)) # pow10 (List.length fp))
    else None
  end.

(** The number a binary64 value stands for; none for infinities and NaN. *)
Definition value64 (x : binary64) : option Q :=
  match x with
  | S754_zero _ => Some 0%Q
  | S754_finite s m e =>
    let n := if s then Zneg m else Zpos m in
    Some match e with
         | Zneg k => n # Pos.pow 2 k
         | _ => (n * 2 ^ e)%Z # 1
         end
  | _ => None
  end.

(** [x] is exactly the number [q]. *)
Definition is_number (x : option binary64) (q : Q) : Prop :=
  exists y v, x = Some y /\ value64 y = Some v /\ (v == q)%Q.

(** The statement "the amount equals the number that follows a currency
    glyph, exactly", for one input: every occurrence of a glyph, optional
    whitespace and a positive number [num] of the numeric grammar. *)
Definition glyph_amount_claim {rt : PyRuntime} (now : datetime) (text : str)
  : Prop :=
  forall pre g ws num post q,
    text = pre ++ g :: ws ++ num ++ post ->
    currency_glyph g = true ->
    forallb is_space ws = true ->
    Reference.numeric_token (num ++ post) = num ->
    decimal_value (remove_commas num) = Some q ->
    (0 < q)%Q ->
    is_number (amount (parse now text)) q.

(** The statement "a fractional part that does not have two digits is
    dropped", for one input: [ds] is the integer part and [fs] the digits
    after the point. *)
Definition fraction_dropped_claim {rt : PyRuntime} (now : datetime)
           (text : str) : Prop :=
  forall pre g ds fs post,
    text = pre ++ g :: ds ++ 46 :: fs ++ post ->
    currency_glyph g = true ->
    ds <> [] ->
    forallb ascii_digit ds = true ->
    forallb ascii_digit fs = true ->
    List.length fs <> 2%nat ->
    existsb ascii_digit (firstn 1 post) = false ->
    is_number (amount (parse now text)) (Z.of_N (digits_value ds) # 1).

Ltac bool_to_prop :=
  repeat match goal with
         | H : _ = true |- _ =>
           first [ apply orb_true_iff in H | apply andb_true_iff in H
                 | apply N.leb_le in H | apply N.eqb_eq in H ]
         | H : _ = false |- _ =>
           first [ apply orb_false_iff in H | apply andb_false_iff in H
                 | apply N.leb_gt in H | apply N.eqb_neq in H ]
         | H : _ /\ _ |- _ => destruct H
         | H : _ \/ _ |- _ => destruct H
         end.


(** ** Auxiliary definitions for further properties *)

(** A property of texts that every tail of a text inherits. *)
Definition tail_closed (Q : str -> Prop) : Prop :=
  forall c t, Q (c :: t) -> Q t.

(** No character of [t] is in the class [p]. *)
Definition lacks (p : char -> bool) (t : str) : Prop :=
  forallb (fun c => negb (p c)) t = true.

(** The number of the leftmost place of [t] at which the numeric grammar
    reads a token. *)
Fixpoint leftmost_number (t : str) : option str :=
  match Reference.numeric_token t with
  | [] =>
    match t with
    | [] => None
    | _ :: t' => leftmost_number t'
    end
  | tok => Some tok
  end.

(** The currency codes of the second amount pattern and the keywords of
    the third. *)
Definition amount_words : list str :=
  [u8 "inr"; u8 "usd"; u8 "eur"; u8 "gbp"; u8 "jpy";
   u8 "amount"; u8 "of"; u8 "rupees"; u8 "dollars"; u8 "euros"].

(** The second and the third of [amount_patterns]. *)
Definition code_re : re :=
  Cat (Grp 1 number_re)
      (Cat (star is_space)
           (alts [lit "inr"; lit "usd"; lit "eur"; lit "gbp"; lit "jpy"])).

Definition amount_keyword_re : re :=
  Cat (alts [lit "amount"; lit "of"; lit "rupees"; lit "dollars"; lit "euros"])
      (Cat (star is_space)
           (Cat (Opt (lit "is"))
                (Cat (star is_space)
                     (Cat (Opt (lit ":"))
                          (Cat (star is_space) (Grp 1 number_re)))))).

(** None of the [words] occurs in [t]. *)
Definition lacks_words (words : list str) (t : str) : Prop :=
  existsb (fun w => contains w t) words = false.

(** The candidate of a pattern: its value when it is strictly positive. *)
Definition positive_value (tok : str) : option binary64 :=
  match py_float (remove_commas tok) with
  | Some x => if positive64 x then Some x else None
  | None => None
  end.

(** Every captured string consists of characters of the class [P]. *)
Definition caps_in (P : char -> bool) (cp : list (nat * str)) : Prop :=
  forall n g, In (n, g) cp -> forallb P g = true.

(** Every group of the pattern is a repetition of a class included in [P]. *)
Fixpoint groups_over (P : char -> bool) (r : re) : Prop :=
  match r with
  | Cat a b => groups_over P a /\ groups_over P b
  | Alt a b => groups_over P a /\ groups_over P b
  | Opt a => groups_over P a
  | Grp _ (Rep _ _ _ p) => forall c, p c = true -> P c = true
  | Grp _ _ => False
  | _ => True
  end.

(** [s] neither starts nor ends with whitespace. *)
Definition trimmed (s : str) : Prop :=
  existsb is_space (firstn 1 s) = false
  /\ existsb is_space (firstn 1 (rev s)) = false.

(** Whitespace in [s] is the single character U+0020, never twice in a
    row. *)
Fixpoint collapsed (s : str) : bool :=
  match s with
  | [] => true
  | c :: s' =>
    (if is_space c
     then (c =? 32) && negb (existsb is_space (firstn 1 s'))
     else true)
    && collapsed s'
  end.

(** ** Collaborators for the examples *)

Module Scenario.

(** A model that answers with a look-up call and then a
    [parse_transaction] call, and one that is unreachable. *)
Definition chat_answers (content : str)
  : list LLMService.tool_call + str :=
  inl [LLMService.ToolCall (u8 "get_categories") (u8 "{}");
       LLMService.ToolCall (u8 "parse_transaction") (u8 "{...}")].

Definition chat_down (content : str) : list LLMService.tool_call + str :=
  inr (u8 "Connection error.").

(** The object the model passed: it has its own [action]. *)
Definition model_object : dict :=
  [(u8 "amount", PInt 1200);
   (u8 "action", PStr (u8 "DELETE"));
   (u8 "category_hint", PStr (u8 "groceries"));
   (u8 "type", PStr (u8 "EXPENSE"));
   (u8 "description", PStr (u8 "groceries"))].

Definition json_loads (arguments : str) : pyval + str :=
  inl (PDict model_object).

Definition type_error (v : pyval) : str :=
  u8 "object does not support item assignment".

(** A backend that accepts the token "good" and confirms every post. *)
Definition verify_token (token : str) : bool + str :=
  inl (str_eqb token (u8 "good")).

Definition process_mcp_transaction (mcp_request : dict) (token : str)
  : str + str :=
  inl (u8 "created").

Definition handler (chat : str -> list LLMService.tool_call + str) :=
  Main.process_transaction (rt := CRuntime.runtime) CRuntime.clock chat
                           json_loads type_error verify_token
                           process_mcp_transaction (fun e => e).

Definition request (text : string) (llm : bool) : Main.ProcessMCPRequest :=
  {| Main.req_input := u8 text;
     Main.jwt_token := u8 "good";
     Main.use_llm := llm |}.

(** The remote model over time.  The state is the number of completion
    requests made so far: the endpoint answers the first one and is
    unreachable from then on. *)
Definition chat_at (calls : nat) : str -> list LLMService.tool_call + str :=
  match calls with
  | O => chat_answers
  | S _ => chat_down
  end.

(** [llm_service.parse_transaction_text] against that model: one
    completion request per call. *)
Definition parse_transaction_text (calls : nat) (text : str) : dict * nat :=
  (LLMService.parse_transaction_text (chat_at calls) json_loads type_error
                                     (fun e => e) text,
   S calls).

(** [process_transaction] over that model and that backend, as the batch
    loop sees it: the 401 [HTTPException] is the exception it re-raises,
    and a completion request is made when the token is accepted and the
    request asks for the language model. *)
Definition process_transaction (calls : nat) (req : Main.ProcessMCPRequest)
  : (@Main.outcome str + unit) * nat :=
  let calls' :=
    if str_eqb (Main.jwt_token req) (u8 "good") && Main.use_llm req
    then S calls else calls in
  match fst (handler (chat_at calls) req) with
  | Main.Unauthorized => (inr tt, calls')
  | response => (inl response, calls')
  end.

End Scenario.

(** Every successful match of the pattern sets group [n]. *)
Fixpoint binds (n : nat) (r : re) : bool :=
  match r with
  | Cat a b => binds n a || binds n b
  | Alt a b => binds n a && binds n b
  | Grp m a => Nat.eqb n m || binds n a
  | _ => false
  end.

(** * Properties *)

(** ** The matcher *)

Lemma orelse_none_r {A} (x : option A) : orelse x None = x.
Proof. destruct x; reflexivity. Qed.

Lemma advance_app pv xs ys :
  advance pv (xs ++ ys) = advance (advance pv xs) ys.
Proof. unfold advance. apply fold_left_app. Qed.

Lemma take_drop_while p (s : str) : take_while p s ++ drop_while p s = s.
Proof.
  induction s as [|c s IH]; simpl; [reflexivity|].
  destruct (p c); simpl; [now rewrite IH | reflexivity].
Qed.

Lemma rep_exhausted {A} g p (k : cursor -> option A) pv cp t :
  rep g p k 0 (Some 0%nat) pv cp t = k (Cursor pv t cp).
Proof.
  destruct t as [|c t]; simpl.
  - destruct g; [reflexivity | apply orelse_none_r].
  - destruct (p c), g; simpl; auto using orelse_none_r.
Qed.

(** A greedy star whose continuation succeeds after the longest run. *)
Lemma rep_star_max {A} p (k : cursor -> option A) pv cp t x :
  k (Cursor (advance pv (take_while p t)) (drop_while p t) cp) = Some x ->
  rep true p k 0 None pv cp t = Some x.
Proof.
  revert pv. induction t as [|c t IH]; intros pv; simpl.
  - intros ->. reflexivity.
  - destruct (p c); simpl.
    + intros H. now rewrite (IH (Some c) H).
    + intros ->. reflexivity.
Qed.

(** A greedy star whose continuation fails wherever the next character is
    in the class: only the longest run is left. *)
Lemma rep_star_skip {A} p (k : cursor -> option A) pv cp t :
  (forall pv' c r cp', p c = true -> k (Cursor pv' (c :: r) cp') = None) ->
  rep true p k 0 None pv cp t
  = k (Cursor (advance pv (take_while p t)) (drop_while p t) cp).
Proof.
  intros Hk. revert pv. induction t as [|c t IH]; intros pv; simpl.
  - reflexivity.
  - destruct (p c) eqn:E; simpl.
    + rewrite IH, (Hk pv c t cp E). apply orelse_none_r.
    + reflexivity.
Qed.

Lemma skipn_length_app (a r : str) : skipn (List.length a) (a ++ r) = r.
Proof. induction a; simpl; auto. Qed.

Lemma firstn_length_app (a r : str) : firstn (List.length a) (a ++ r) = a.
Proof. induction a; simpl; f_equal; auto. Qed.

Lemma skipn_take_while p (s : str) :
  skipn (List.length (take_while p s)) s = drop_while p s.
Proof.
  rewrite <- (take_drop_while p s) at 2. apply skipn_length_app.
Qed.

Lemma prefix_split (a r s : str) :
  s = a ++ r -> s = a ++ skipn (List.length a) s.
Proof. intros ->. now rewrite skipn_length_app. Qed.

(** ** The numeric grammar *)

Lemma lit_dot : lit "." = Cat (Chr (N.eqb 46)) Eps.
Proof. reflexivity. Qed.

Lemma fraction_of_prefix s :
  s = Reference.fraction_of s
        ++ skipn (List.length (Reference.fraction_of s)) s.
Proof.
  destruct s as [|a [|b [|c s]]]; try reflexivity.
  unfold Reference.fraction_of.
  destruct ((a =? 46) && ascii_digit b && ascii_digit c); reflexivity.
Qed.

(** [\.[0-9]{2}] followed by a continuation that succeeds. *)
Lemma run_fraction {A} (f : cursor -> A) pv cp s :
  run (Opt (Cat (lit ".") (times 2 2 ascii_digit)))
      (fun e => Some (f e)) (Cursor pv s cp)
  = Some (f (Cursor (advance pv (Reference.fraction_of s))
                    (skipn (List.length (Reference.fraction_of s)) s) cp)).
Proof.
  rewrite lit_dot. unfold times. cbn [run rest caps prev].
  unfold Reference.fraction_of.
  destruct s as [|a s]; [reflexivity|].
  rewrite (N.eqb_sym a 46).
  destruct (46 =? a) eqn:Ea; cbn [andb orelse].
  - destruct s as [|b [|c s]]; cbn [rep Nat.pred].
    + reflexivity.
    + destruct (ascii_digit b); reflexivity.
    + destruct (ascii_digit b); cbn [andb orelse]; [|reflexivity].
      destruct (ascii_digit c); cbn [andb orelse]; [|reflexivity].
      now rewrite rep_exhausted.
  - destruct s as [|b [|c s]]; reflexivity.
Qed.

Lemma numeric_token_prefix s :
  s = Reference.numeric_token s
        ++ skipn (List.length (Reference.numeric_token s)) s.
Proof.
  unfold Reference.numeric_token.
  destruct (take_while amount_char s) as [|d ds] eqn:E; [reflexivity|].
  apply prefix_split
    with (r := skipn (List.length
                        (Reference.fraction_of (drop_while amount_char s)))
                     (drop_while amount_char s)).
  rewrite <- app_assoc, <- fraction_of_prefix, <- E.
  symmetry. apply take_drop_while.
Qed.

(** The numeric grammar of the source reads the reference token. *)
Lemma run_number_re {A} (f : cursor -> A) pv cp s :
  run number_re (fun e => Some (f e)) (Cursor pv s cp)
  = match Reference.numeric_token s with
    | [] => None
    | tok =>
      Some (f (Cursor (advance pv tok) (skipn (List.length tok) s) cp))
    end.
Proof.
  unfold number_re, plus. cbn [run rest caps prev].
  unfold Reference.numeric_token.
  destruct s as [|c s]; [reflexivity|].
  cbn [rep take_while drop_while Nat.pred].
  destruct (amount_char c) eqn:Ec; [|reflexivity].
  cbn [app].
  erewrite rep_star_max.
  2:{ change (fun e : cursor =>
                orelse (run (Cat (lit ".") (times 2 2 ascii_digit))
                            (fun e0 => Some (f e0)) e)
                       (Some (f e)))
        with (run (Opt (Cat (lit ".") (times 2 2 ascii_digit)))
                  (fun e0 => Some (f e0))).
      apply run_fraction. }
  f_equal. f_equal. f_equal.
  - change (c :: take_while amount_char s
              ++ Reference.fraction_of (drop_while amount_char s))
      with ([c] ++ take_while amount_char s
              ++ Reference.fraction_of (drop_while amount_char s)).
    now rewrite !advance_app.
  - change (skipn
              (List.length
                 (c :: take_while amount_char s
                    ++ Reference.fraction_of (drop_while amount_char s)))
              (c :: s))
      with (skipn
              (List.length
                 (take_while amount_char s
                    ++ Reference.fraction_of (drop_while amount_char s))) s).
    now rewrite length_app, <- Nat.add_comm, <- skipn_skipn, skipn_take_while.
Qed.

(** ** The first amount pattern *)

Lemma space_not_amount c : is_space c = true -> amount_char c = false.
Proof.
  intros Hs. destruct (amount_char c) eqn:Ha; [|reflexivity].
  unfold is_space, amount_char, ascii_digit, in_range in *.
  bool_to_prop; lia.
Qed.

Lemma numeric_token_space c r :
  is_space c = true -> Reference.numeric_token (c :: r) = [].
Proof.
  intros Hs. unfold Reference.numeric_token. simpl.
  now rewrite (space_not_amount c Hs).
Qed.

Lemma firstn_prefix_length (tok r : str) :
  r = tok ++ skipn (List.length tok) r ->
  firstn (List.length r - List.length (skipn (List.length tok) r)) r = tok.
Proof.
  intros H. remember (skipn (List.length tok) r) as r' eqn:E.
  clear E. subst r. rewrite length_app, Nat.add_sub.
  apply firstn_length_app.
Qed.

Lemma match_at_glyph pv t :
  option_map group1 (match_at glyph_re pv t) = Reference.glyph_number t.
Proof.
  unfold match_at, glyph_re, star. cbn [run rest caps prev].
  unfold Reference.glyph_number.
  destruct t as [|c b]; [reflexivity|].
  destruct (currency_glyph c); [|reflexivity].
  rewrite rep_star_skip.
  - rewrite run_number_re. cbn [rest caps prev].
    pose proof (numeric_token_prefix (drop_while is_space b)) as Hp.
    destruct (Reference.numeric_token (drop_while is_space b)) as [|d tok];
      [reflexivity|].
    cbn [option_map]. unfold group1, group. cbn [groups assoc Nat.eqb].
    f_equal. now apply firstn_prefix_length.
  - intros pv' c' r cp' Hs.
    rewrite run_number_re. now rewrite (numeric_token_space c' r Hs).
Qed.

Lemma search_from_glyph pv t :
  option_map group1 (search_from glyph_re pv t)
  = Reference.leftmost_glyph_number t.
Proof.
  revert pv. induction t as [|c t IH]; intros pv.
  - reflexivity.
  - cbn [search_from Reference.leftmost_glyph_number].
    rewrite <- (match_at_glyph pv (c :: t)).
    destruct (match_at glyph_re pv (c :: t)); [reflexivity|].
    cbn [option_map]. apply IH.
Qed.

(** The first pattern decides as soon as its candidate is positive. *)
Lemma first_amount_glyph text_cleaned tok q :
  Reference.leftmost_glyph_number text_cleaned = Some tok ->
  py_float (remove_commas tok) = Some q ->
  positive64 q = true ->
  first_amount amount_patterns text_cleaned = Some q.
Proof.
  intros Hl Hf Hq.
  change amount_patterns
    with (glyph_re :: tl amount_patterns).
  cbn [first_amount]. unfold search.
  pose proof (search_from_glyph None text_cleaned) as Hs.
  rewrite Hl in Hs.
  destruct (search_from glyph_re None text_cleaned) as [m|]; [|discriminate].
  cbn [option_map] in Hs. injection Hs as ->.
  now rewrite Hf, Hq.
Qed.

(** ** Invariants of the extractors *)

Section Extractors.
Context {rt : PyRuntime}.

Lemma positive_nonzero x : positive64 x = true -> nonzero64 x = true.
Proof. now destruct x as [[]|[]| |[] m e]. Qed.

Lemma first_amount_positive patterns text_cleaned q :
  first_amount patterns text_cleaned = Some q -> positive64 q = true.
Proof.
  induction patterns as [|p ps IH]; cbn [first_amount]; [discriminate|].
  destruct (search p text_cleaned) as [m|]; [|exact IH].
  destruct (py_float (remove_commas (group1 m))) as [a|]; [|exact IH].
  destruct (positive64 a) eqn:E; [|exact IH].
  now intros [= <-].
Qed.

Lemma amount_truthy_present text :
  amount_truthy (parse_amount text) = Reference.present (parse_amount text).
Proof.
  destruct (parse_amount text) as [q|] eqn:E; [|reflexivity].
  apply first_amount_positive in E.
  cbn [amount_truthy Reference.present].
  now apply positive_nonzero.
Qed.

Lemma first_hint_long patterns text_lower h :
  first_hint patterns text_lower = Some h -> (1 < List.length h)%nat.
Proof.
  induction patterns as [|p ps IH]; cbn [first_hint]; [discriminate|].
  destruct (search p text_lower) as [m|]; [|exact IH].
  destruct (negb (is_nil (strip (group1 m)))
            && (1 <? List.length (strip (group1 m)))%nat) eqn:E; [|exact IH].
  intros [= <-]. apply andb_true_iff in E. now apply Nat.ltb_lt.
Qed.

Lemma category_hint_nonempty text h :
  extract_category_hint text = Some h -> is_nil h = false.
Proof.
  intros H. apply first_hint_long in H. destruct h; [inversion H|reflexivity].
Qed.

Lemma hint_truthy_present text :
  str_truthy (extract_category_hint text)
  = Reference.present (extract_category_hint text).
Proof.
  destruct (extract_category_hint text) as [h|] eqn:E; [|reflexivity].
  apply category_hint_nonempty in E. now destruct h.
Qed.

Lemma extract_description_nonempty text category_hint :
  is_nil (extract_description text category_hint) = false.
Proof.
  unfold extract_description.
  destruct category_hint as [h|].
  - destruct (clean_description text) as [|c d]; cbn [is_nil andb].
    + destruct h; reflexivity.
    + reflexivity.
  - destruct (clean_description text); reflexivity.
Qed.

(** The confidence and the flag of the assembled record, in terms of the
    four extractions. *)
Lemma confidence_parse now text :
  confidence (parse now text)
  = Reference.score
      (Reference.present (parse_amount text))
      (Reference.present (extract_category_hint text))
      (Reference.present (parse_date now text))
      (negb (str_eqb (extract_description text (extract_category_hint text))
                     (u8 "Transaction"))).
Proof.
  unfold parse. cbn [confidence].
  rewrite amount_truthy_present, hint_truthy_present,
    extract_description_nonempty.
  cbn [negb andb]. unfold Reference.score.
  destruct (Reference.present (parse_amount text)),
    (Reference.present (extract_category_hint text)),
    (parse_date now text),
    (negb (str_eqb (extract_description text (extract_category_hint text))
                   (u8 "Transaction"))); reflexivity.
Qed.

Lemma clarification_parse now text :
  clarification_needed (parse now text)
  = if Reference.present (parse_amount text)
    then (confidence (parse now text) <? 0.5)%float
    else true.
Proof.
  unfold parse. cbn [confidence clarification_needed].
  rewrite amount_truthy_present, hint_truthy_present,
    extract_description_nonempty.
  cbn [negb andb].
  destruct (Reference.present (parse_amount text)); [|reflexivity].
  destruct (Reference.present (extract_category_hint text)),
    (parse_date now text),
    (negb (str_eqb (extract_description text (extract_category_hint text))
                   (u8 "Transaction"))); reflexivity.
Qed.

Lemma any_keyword_in_existsb keywords text_lower :
  any_keyword_in keywords text_lower
  = existsb (fun k => contains k text_lower) keywords.
Proof.
  induction keywords as [|k ks IH]; cbn [any_keyword_in existsb];
    [reflexivity|].
  rewrite IH. now destruct (contains k text_lower).
Qed.

Lemma existsb_Permutation {X} (f : X -> bool) l l' :
  Permutation l l' -> existsb f l = existsb f l'.
Proof.
  induction 1 as [|x l l' _ IH|x y l|l l' l'' _ IH1 _ IH2]; cbn [existsb].
  - reflexivity.
  - now rewrite IH.
  - now destruct (f x), (f y).
  - now rewrite IH1.
Qed.

Lemma sub_from_nil r repl skip pv : sub_from r repl skip pv [] = [].
Proof. reflexivity. Qed.

Lemma remove_keywords_nil keywords : remove_keywords keywords [] = [].
Proof. induction keywords; cbn [remove_keywords]; auto. Qed.

Lemma clean_description_nil : clean_description [] = [].
Proof.
  unfold clean_description. unfold sub at 2 3 4 5.
  cbn [sub_from]. rewrite remove_keywords_nil. reflexivity.
Qed.
End Extractors.

(** ** The record assembled by [parse] *)

Section Assembler.
Context {rt : PyRuntime}.

(** C1. For every input, [clarification_needed] is true when the amount is
    absent; when the amount is present it is true exactly when the
    confidence is strictly below 0.5. *)
Theorem parse_clarification_needed now text :
  clarification_needed (parse now text)
  = match amount (parse now text) with
    | None => true
    | Some _ => (confidence (parse now text) <? 0.5)%float
    end.
Proof.
  rewrite clarification_parse.
  change (amount (parse now text)) with (parse_amount text).
  now destruct (parse_amount text).
Qed.

Lemma present_transaction_date now text :
  Reference.present (transaction_date (parse now text))
  = Reference.present (parse_date now text).
Proof.
  unfold parse. cbn [transaction_date]. now destruct (parse_date now text).
Qed.

Lemma score_bounds a h d p :
  (0 <=? Reference.score a h d p)%float = true
  /\ (Reference.score a h d p <=? 1)%float = true.
Proof. destruct a, h, d, p; split; reflexivity. Qed.

(** C3. For every input, the confidence is the sum of 0.4 if the amount is
    present, 0.3 if the category hint is present, 0.2 if a date was found
    and 0.1 if the description is not the placeholder, clamped to at most
    1.0 (in binary64 arithmetic, summed in that order); it lies in
    [0.0, 1.0]. *)
Theorem parse_confidence_score now text :
  let r := parse now text in
  confidence r
  = Reference.score
      (Reference.present (amount r))
      (Reference.present (category_hint r))
      (Reference.present (transaction_date r))
      (negb (str_eqb (description r) (u8 "Transaction")))
  /\ (0 <=? confidence r)%float = true
  /\ (confidence r <=? 1)%float = true.
Proof.
  intros r. unfold r. rewrite present_transaction_date.
  rewrite (confidence_parse now text). split; [reflexivity|].
  apply score_bounds.
Qed.

(** C8. The record keeps the input verbatim, and parsing that
    [original_input] again, at the same clock or at any other, yields the
    same amount, type and category hint. *)
Theorem parse_reparse_original_input now text :
  let r := parse now text in
  original_input r = text
  /\ (forall now',
         let r' := parse now' (original_input r) in
         amount r' = amount r
         /\ type r' = type r
         /\ category_hint r' = category_hint r).
Proof. cbn. repeat split. Qed.

(** C9. For every input, the description of the record is not empty: it
    is the cleaned text; when nothing is left of it, the category hint if
    there is one, and the placeholder otherwise. *)
Theorem parse_description_nonempty now text :
  let r := parse now text in
  description r <> []
  /\ description r
     = match clean_description text, category_hint r with
       | [], Some hint => hint
       | [], None => u8 "Transaction"
       | d, _ => d
       end.
Proof.
  cbn zeta.
  change (description (parse now text))
    with (extract_description text (extract_category_hint text)).
  change (category_hint (parse now text)) with (extract_category_hint text).
  split.
  - pose proof (extract_description_nonempty text (extract_category_hint text)).
    now destruct (extract_description text (extract_category_hint text)).
  - unfold extract_description.
    destruct (extract_category_hint text) as [h|] eqn:E.
    + apply category_hint_nonempty in E.
      destruct (clean_description text); cbn [is_nil andb negb].
      * rewrite E. cbn [negb]. now rewrite E.
      * reflexivity.
    + now destruct (clean_description text).
Qed.

(** C5. For every input, the classifier returns "INCOME" or "EXPENSE":
    "INCOME" when an income keyword occurs in the lower-cased text, whatever
    else occurs, and "EXPENSE" in every other case, whatever the order in
    which the keyword sets are iterated. *)
Theorem detect_type_classifies text :
  (detect_type text = u8 "INCOME" \/ detect_type text = u8 "EXPENSE")
  /\ detect_type text
     = if existsb (fun k => contains k (lower text)) INCOME_KEYWORDS
       then u8 "INCOME" else u8 "EXPENSE".
Proof.
  unfold detect_type.
  rewrite !any_keyword_in_existsb.
  rewrite (existsb_Permutation _ _ _ income_iter_perm).
  destruct (existsb _ INCOME_KEYWORDS); [now split; [left|]|].
  destruct (existsb _ expense_iter); now split; [right|].
Qed.

Lemma keyword_date_find items now text_lower keyword offset_days :
  find (fun item => contains (fst item) text_lower) items
  = Some (keyword, offset_days) ->
  keyword_date items now text_lower = Some (add_days now offset_days).
Proof.
  induction items as [|[k o] items IH]; cbn [find keyword_date fst];
    [discriminate|].
  destruct (contains k text_lower); [now intros [= _ <-] | exact IH].
Qed.

(** C6. When the lower-cased input contains a relative-day keyword as a
    substring, the date extractor returns the clock plus the offset of the
    first keyword of [DATE_KEYWORDS], in the order of the table, that
    occurs; neither the absolute-date patterns nor [strptime] contribute. *)
Theorem parse_date_relative_keyword now text keyword offset_days :
  find (fun item => contains (fst item) (lower text)) DATE_KEYWORDS
  = Some (keyword, offset_days) ->
  parse_date now text = Some (add_days now offset_days).
Proof.
  intros H. unfold parse_date.
  now rewrite (keyword_date_find _ now _ _ _ H).
Qed.

End Assembler.

(** ** The amount after a currency glyph *)

Lemma leftmost_skip_prefix pre t :
  forallb (fun c => negb (currency_glyph c)) pre = true ->
  Reference.leftmost_glyph_number (pre ++ t)
  = Reference.leftmost_glyph_number t.
Proof.
  induction pre as [|c pre IH]; cbn [forallb app]; [reflexivity|].
  intros H. apply andb_true_iff in H. destruct H as [Hc Hp].
  cbn [Reference.leftmost_glyph_number Reference.glyph_number].
  apply negb_true_iff in Hc. rewrite Hc. now apply IH.
Qed.

Lemma drop_while_run p (xs : str) c r :
  forallb p xs = true -> p c = false ->
  drop_while p (xs ++ c :: r) = c :: r.
Proof.
  intros Hx Hc. induction xs as [|x xs IH]; cbn [app drop_while].
  - now rewrite Hc.
  - cbn [forallb] in Hx. apply andb_true_iff in Hx. destruct Hx as [-> Hx].
    now apply IH.
Qed.

Lemma take_while_run p (xs : str) c r :
  forallb p xs = true -> p c = false ->
  take_while p (xs ++ c :: r) = xs.
Proof.
  intros Hx Hc. induction xs as [|x xs IH]; cbn [app take_while].
  - now rewrite Hc.
  - cbn [forallb] in Hx. apply andb_true_iff in Hx. destruct Hx as [-> Hx].
    f_equal. now apply IH.
Qed.

Lemma fraction_of_digits fs post :
  forallb ascii_digit fs = true ->
  existsb ascii_digit (firstn 1 post) = false ->
  Reference.fraction_of (46 :: fs ++ post)
  = if (List.length fs <? 2)%nat then [] else 46 :: firstn 2 fs.
Proof.
  intros Hf Hp. unfold Reference.fraction_of.
  destruct fs as [|d1 [|d2 fs]]; cbn [app List.length Nat.ltb Nat.leb firstn].
  - destruct post as [|c [|c2 post]]; try reflexivity.
    cbn [firstn existsb] in Hp. apply orb_false_iff in Hp.
    destruct Hp as [-> _]. reflexivity.
  - destruct post as [|c post]; [reflexivity|].
    cbn [firstn existsb] in Hp. apply orb_false_iff in Hp.
    destruct Hp as [-> _]. now rewrite andb_false_r.
  - cbn [forallb] in Hf.
    apply andb_true_iff in Hf. destruct Hf as [-> Hf].
    apply andb_true_iff in Hf. destruct Hf as [-> _]. reflexivity.
Qed.

Lemma numeric_token_fraction ds fs post :
  ds <> [] ->
  forallb amount_char ds = true ->
  forallb ascii_digit fs = true ->
  existsb ascii_digit (firstn 1 post) = false ->
  Reference.numeric_token (ds ++ 46 :: fs ++ post)
  = if (List.length fs <? 2)%nat then ds else ds ++ 46 :: firstn 2 fs.
Proof.
  intros Hne Hd Hf Hp. unfold Reference.numeric_token.
  rewrite take_while_run, drop_while_run by (assumption || reflexivity).
  rewrite fraction_of_digits by assumption.
  destruct ds as [|d ds]; [contradiction|].
  destruct (List.length fs <? 2)%nat; [apply app_nil_r | reflexivity].
Qed.

Section Amount.
Context {rt : PyRuntime}.

(** The first pattern on the lower-cased text. *)
Lemma parse_amount_leftmost text tok q :
  Reference.leftmost_glyph_number (lower text) = Some tok ->
  py_float (remove_commas tok) = Some q ->
  positive64 q = true ->
  parse_amount text = Some q.
Proof.
  intros Hl Hf Hq. unfold parse_amount.
  now apply first_amount_glyph with (tok := tok).
Qed.

(** C2, as amended.  Take the leftmost place of the lower-cased input at
    which a currency glyph is followed, after optional whitespace, by a
    number of the numeric grammar.  When [float] of that number, its
    thousands separators removed, is strictly positive, it is the amount
    of the record. *)
Theorem parse_amount_glyph_number now text tok q :
  Reference.leftmost_glyph_number (lower text) = Some tok ->
  py_float (remove_commas tok) = Some q ->
  positive64 q = true ->
  amount (parse now text) = Some q.
Proof.
  intros Hl Hf Hq.
  change (amount (parse now text)) with (parse_amount text).
  exact (parse_amount_leftmost text tok q Hl Hf Hq).
Qed.

(** C10, as amended.  Let the leftmost currency glyph of the lower-cased
    input be followed, after optional whitespace, by an integer part [ds],
    a point and exactly the fractional digits [fs].  With fewer than two
    fractional digits the candidate is the integer part alone; with two or
    more it is the integer part and the first two fractional digits, the
    others being dropped.  The amount is [float] of the candidate, its
    thousands separators removed, when that is strictly positive. *)
Theorem parse_amount_fraction_digits now text pre g ws ds fs post q :
  lower text = pre ++ g :: ws ++ ds ++ 46 :: fs ++ post ->
  forallb (fun c => negb (currency_glyph c)) pre = true ->
  currency_glyph g = true ->
  forallb is_space ws = true ->
  ds <> [] ->
  forallb amount_char ds = true ->
  forallb ascii_digit fs = true ->
  existsb ascii_digit (firstn 1 post) = false ->
  py_float (remove_commas
              (if (List.length fs <? 2)%nat then ds
               else ds ++ 46 :: firstn 2 fs)) = Some q ->
  positive64 q = true ->
  amount (parse now text) = Some q.
Proof.
  intros Ht Hpre Hg Hws Hne Hd Hf Hp Hfl Hq.
  change (amount (parse now text)) with (parse_amount text).
  apply parse_amount_leftmost
    with (tok := if (List.length fs <? 2)%nat then ds
                 else ds ++ 46 :: firstn 2 fs); try assumption.
  rewrite Ht, leftmost_skip_prefix by assumption.
  cbn [Reference.leftmost_glyph_number Reference.glyph_number].
  rewrite Hg.
  destruct ds as [|d ds]; [contradiction|].
  assert (Hsp : is_space d = false).
  { cbn [forallb] in Hd. apply andb_true_iff in Hd. destruct Hd as [Hd _].
    destruct (is_space d) eqn:E; [|reflexivity].
    apply space_not_amount in E. congruence. }
  cbn [app]. rewrite drop_while_run by assumption.
  change (d :: ds ++ 46 :: fs ++ post) with ((d :: ds) ++ 46 :: fs ++ post).
  rewrite numeric_token_fraction by assumption.
  unfold char. destruct (List.length fs <? 2)%nat; reflexivity.
Qed.

End Amount.

(** ** Batch parsing *)

Lemma each_in_turn_app {W X Y} (f : W -> X -> Y * W) w xs :
  forall acc,
    (acc ++ fst (each_in_turn f w xs), snd (each_in_turn f w xs))
    = let (ys, w') := each_in_turn f w xs in (acc ++ ys, w').
Proof. intros acc. now destruct (each_in_turn f w xs). Qed.

Lemma llm_batch_loop_turn {World Result}
      (p : World -> str -> Result * World) inputs :
  forall w results,
    LLMService.batch_loop p w inputs results
    = (results ++ fst (each_in_turn p w inputs),
       snd (each_in_turn p w inputs)).
Proof.
  induction inputs as [|text inputs IH]; intros w results.
  - cbn. now rewrite app_nil_r.
  - cbn [LLMService.batch_loop each_in_turn].
    destruct (p w text) as [result w'].
    rewrite IH. destruct (each_in_turn p w' inputs) as [ys w''].
    cbn [fst snd]. now rewrite <- app_assoc.
Qed.

Lemma main_batch_loop_turn {World Request Response Exn}
      (proc : World -> Request -> (Response + Exn) * World)
      (input : Request -> str) (str_of_exn : Exn -> str) requests_list :
  forall w results,
    Main.batch_loop_in proc input str_of_exn w requests_list results
    = (results
         ++ fst (each_in_turn (Main.batch_entry_in proc input str_of_exn)
                              w requests_list),
       snd (each_in_turn (Main.batch_entry_in proc input str_of_exn)
                         w requests_list)).
Proof.
  induction requests_list as [|req reqs IH]; intros w results.
  - cbn. now rewrite app_nil_r.
  - cbn [Main.batch_loop_in each_in_turn]. unfold Main.batch_entry_in at 1 3.
    destruct (proc w req) as [[result|e] w']; rewrite IH;
      destruct (each_in_turn _ w' reqs) as [ys w''];
      cbn [fst snd]; now rewrite <- app_assoc.
Qed.

Lemma each_in_turn_length {W X Y} (f : W -> X -> Y * W) xs :
  forall w, List.length (fst (each_in_turn f w xs)) = List.length xs.
Proof.
  induction xs as [|x xs IH]; intros w; [reflexivity|].
  cbn [each_in_turn]. destruct (f w x) as [y w'].
  specialize (IH w'). destruct (each_in_turn f w' xs). cbn in *. now f_equal.
Qed.

Lemma each_in_turn_nth {W X Y} (f : W -> X -> Y * W) xs :
  forall w i,
    nth_error (fst (each_in_turn f w xs)) i
    = option_map (fun x => fst (f (state_before f w xs i) x))
                 (nth_error xs i).
Proof.
  induction xs as [|x xs IH]; intros w i.
  - now destruct i.
  - cbn [each_in_turn]. destruct (f w x) as [y w'] eqn:E.
    specialize (IH w'). destruct (each_in_turn f w' xs) as [ys w''].
    destruct i as [|i]; cbn [fst nth_error option_map state_before] in *.
    + now rewrite E.
    + rewrite E. cbn [snd]. apply IH.
Qed.

Lemma each_in_turn_pure {W X Y} (f : X -> Y) xs :
  forall w : W, each_in_turn (fun w x => (f x, w)) w xs = (map f xs, w).
Proof.
  induction xs as [|x xs IH]; intros w; [reflexivity|].
  cbn [each_in_turn map]. now rewrite IH.
Qed.

(** C7, as amended.  Both batch loops return one element per input, in
    input order; the element at an index is the result of the single-item
    call made for the input at that index, the calls being made one after
    the other, each in the state the calls before it left; in
    [batch_process_transactions] a call that raises gives a failure entry
    and the loop goes on.  When the single-item parser is a function of
    its input alone, as the deterministic [parse] is, the batch is the
    list of its results: in particular the element at index 1 of the
    batch of [a; b; c] is the parse of [b]. *)
Theorem batch_in_call_order :
  (forall World Result (p : World -> str -> Result * World) w inputs,
      LLMService.parse_transaction_batch p w inputs = each_in_turn p w inputs
      /\ List.length (fst (LLMService.parse_transaction_batch p w inputs))
         = List.length inputs
      /\ (forall i,
             nth_error (fst (LLMService.parse_transaction_batch p w inputs)) i
             = option_map (fun text => fst (p (state_before p w inputs i) text))
                          (nth_error inputs i)))
  /\ (forall World Request Response Exn
             (proc : World -> Request -> (Response + Exn) * World)
             (input : Request -> str) (str_of_exn : Exn -> str) w reqs,
         Main.batch_process_transactions_in proc input str_of_exn w reqs
         = each_in_turn (Main.batch_entry_in proc input str_of_exn) w reqs
         /\ List.length
              (fst (Main.batch_process_transactions_in proc input str_of_exn
                                                       w reqs))
            = List.length reqs
         /\ (forall i,
                nth_error
                  (fst (Main.batch_process_transactions_in
                          proc input str_of_exn w reqs)) i
                = option_map
                    (fun req =>
                       fst (Main.batch_entry_in
                              proc input str_of_exn
                              (state_before
                                 (Main.batch_entry_in proc input str_of_exn)
                                 w reqs i) req))
                    (nth_error reqs i)))
  /\ (forall World Result (f : str -> Result) (w : World) inputs,
         fst (LLMService.parse_transaction_batch (fun w t => (f t, w))
                                                 w inputs)
         = map f inputs)
  /\ (forall (rt : PyRuntime) now World (w : World) a b c,
         nth_error
           (fst (LLMService.parse_transaction_batch
                   (fun w t => (parse now t, w)) w [a; b; c])) 1
         = Some (parse now b)).
Proof.
  assert (HL : forall World Result (p : World -> str -> Result * World)
                      w inputs,
             LLMService.parse_transaction_batch p w inputs
             = each_in_turn p w inputs).
  { intros. unfold LLMService.parse_transaction_batch.
    rewrite llm_batch_loop_turn. now destruct (each_in_turn p w inputs). }
  assert (HM : forall World Request Response Exn
                      (proc : World -> Request -> (Response + Exn) * World)
                      (input : Request -> str) (str_of_exn : Exn -> str)
                      w reqs,
             Main.batch_process_transactions_in proc input str_of_exn w reqs
             = each_in_turn (Main.batch_entry_in proc input str_of_exn)
                            w reqs).
  { intros. unfold Main.batch_process_transactions_in.
    rewrite main_batch_loop_turn. now destruct (each_in_turn _ w reqs). }
  repeat split.
  - apply HL.
  - rewrite HL. apply each_in_turn_length.
  - intros i. rewrite HL. apply each_in_turn_nth.
  - apply HM.
  - rewrite HM. apply each_in_turn_length.
  - intros i. rewrite HM. apply each_in_turn_nth.
  - intros. now rewrite HL, each_in_turn_pure.
Qed.

Section MainBatch.
Context {Request Response Exn : Type}.
Variable process_transaction : Request -> Response + Exn.
Variable input : Request -> str.
Variable str_of_exn : Exn -> str.

Lemma main_batch_loop_map requests_list results :
  Main.batch_loop process_transaction input str_of_exn requests_list results
  = results
      ++ map (Main.batch_entry process_transaction input str_of_exn)
             requests_list.
Proof.
  revert results.
  induction requests_list as [|req reqs IH]; intros results.
  - symmetry. apply app_nil_r.
  - cbn [Main.batch_loop map].
    destruct (process_transaction req) eqn:E;
      rewrite IH, <- app_assoc; cbn [app]; f_equal; f_equal;
      unfold Main.batch_entry; now rewrite E.
Qed.

(** One entry per request, in order, also when a request fails. *)
Lemma batch_process_transactions_pointwise requests_list :
  Main.batch_process_transactions process_transaction input str_of_exn
                                  requests_list
  = map (Main.batch_entry process_transaction input str_of_exn)
        requests_list.
Proof. exact (main_batch_loop_map requests_list []). Qed.

End MainBatch.

(** ** Patterns that cannot match *)

Lemma lacks_tail_closed p : tail_closed (lacks p).
Proof.
  intros c t H. unfold lacks in *. cbn [forallb] in H.
  now apply andb_true_iff in H.
Qed.

Lemma lacks_head p c t : lacks p (c :: t) -> p c = false.
Proof.
  unfold lacks. cbn [forallb]. intros H. apply andb_true_iff in H.
  now apply negb_true_iff.
Qed.

(** A repetition fails when its continuation fails on every tail. *)
Lemma rep_fail {A} (Q : str -> Prop) g p (k : cursor -> option A) :
  tail_closed Q ->
  (forall e, Q (rest e) -> k e = None) ->
  forall t lo hi pv cp, Q t -> rep g p k lo hi pv cp t = None.
Proof.
  intros HQ Hk. induction t as [|c t IH]; intros lo hi pv cp Ht; cbn [rep].
  - rewrite (Hk (Cursor pv [] cp) Ht). now destruct lo, g.
  - rewrite (Hk (Cursor pv (c :: t) cp) Ht).
    assert (Hm : (if p c
                  then match hi with
                       | Some 0%nat => None
                       | Some (S h) =>
                         rep g p k (Nat.pred lo) (Some h) (Some c) cp t
                       | None => rep g p k (Nat.pred lo) None (Some c) cp t
                       end
                  else None) = None).
    { destruct (p c); [|reflexivity].
      destruct hi as [[|h]|]; [reflexivity| |]; apply IH; exact (HQ c t Ht). }
    rewrite Hm. now destruct lo, g.
Qed.

(** A pattern fails when its continuation fails on every tail. *)
Lemma run_fail {A} (Q : str -> Prop) :
  tail_closed Q ->
  forall r (k : cursor -> option A) s,
    (forall e, Q (rest e) -> k e = None) -> Q (rest s) -> run r k s = None.
Proof.
  intros HQ. induction r as [|p|a IHa b IHb|a IHa b IHb|a IHa|g lo hi p
                             |n a IHa| |w];
    intros k s Hk Hs; cbn [run].
  - now apply Hk.
  - destruct (rest s) as [|c t] eqn:E; [reflexivity|].
    destruct (p c); [|reflexivity].
    apply Hk. cbn [rest]. exact (HQ c t Hs).
  - apply IHa; [|exact Hs]. intros e He. now apply IHb.
  - rewrite IHa, IHb by assumption. reflexivity.
  - rewrite IHa, Hk by assumption. reflexivity.
  - now apply rep_fail with (Q := Q).
  - apply IHa; [|exact Hs]. intros e He. now apply Hk.
  - rewrite (Hk s Hs).
    repeat match goal with
           | |- context [match ?x with _ => _ end] => destruct x
           end; reflexivity.
  - rewrite (Hk s Hs). now destruct (xorb _ _).
Qed.

Lemma run_cat_fail {A} (Q : str -> Prop) a b (k : cursor -> option A) s :
  tail_closed Q ->
  (forall e, Q (rest e) -> run b k e = None) ->
  Q (rest s) -> run (Cat a b) k s = None.
Proof. intros HQ Hb Hs. cbn [run]. now apply run_fail with (Q := Q). Qed.

(** A mandatory repetition fails at once on a character outside its class. *)
Lemma rep_needs_head {A} g p (k : cursor -> option A) lo hi pv cp t :
  lacks p t -> rep g p k (S lo) hi pv cp t = None.
Proof.
  intros H. destruct t as [|c t]; [reflexivity|].
  cbn [rep]. now rewrite (lacks_head p c t H).
Qed.

Lemma search_from_fail (Q : str -> Prop) r :
  tail_closed Q ->
  (forall pv t, Q t -> match_at r pv t = None) ->
  forall t pv, Q t -> search_from r pv t = None.
Proof.
  intros HQ Hm. induction t as [|c t IH]; intros pv Ht; cbn [search_from].
  - now rewrite Hm.
  - rewrite Hm by assumption. apply IH. exact (HQ c t Ht).
Qed.

Lemma match_at_fail r pv t :
  run r (fun e => Some e) (Cursor pv t []) = None -> match_at r pv t = None.
Proof. unfold match_at. now intros ->. Qed.

(** ** Further properties of the amount extractor *)

Lemma number_re_fail {A} (k : cursor -> option A) s :
  lacks amount_char (rest s) -> run number_re k s = None.
Proof.
  intros H. unfold number_re, plus. cbn [run].
  now apply rep_needs_head.
Qed.

Lemma amount_pattern_fail pattern pv t :
  In pattern amount_patterns -> lacks amount_char t ->
  match_at pattern pv t = None.
Proof.
  intros Hin Ht. apply match_at_fail.
  pose proof (lacks_tail_closed amount_char) as HQ.
  assert (Hn : forall (k : cursor -> option cursor) e,
             lacks amount_char (rest e) ->
             run (Grp 1 number_re) k e = None).
  { intros k e He. cbn [run]. now apply number_re_fail. }
  cbn [amount_patterns In] in Hin.
  destruct Hin as [<-|[<-|[<-|[<-|[]]]]].
  - repeat match goal with
           | |- run (Cat _ _) _ _ = None =>
             apply run_cat_fail with (Q := lacks amount_char);
               [exact HQ | intros | cbn [rest]; assumption]
           end.
    now apply Hn.
  - cbn [run]. now apply number_re_fail.
  - repeat match goal with
           | |- run (Cat _ _) _ _ = None =>
             apply run_cat_fail with (Q := lacks amount_char);
               [exact HQ | intros | cbn [rest]; assumption]
           end.
    now apply Hn.
  - now apply Hn.
Qed.

Lemma first_amount_search_fail patterns text_cleaned :
  (forall pattern, In pattern patterns -> search pattern text_cleaned = None) ->
  first_amount patterns text_cleaned = None.
Proof.
  induction patterns as [|p ps IH]; intros H; cbn [first_amount];
    [reflexivity|].
  rewrite (H p (or_introl eq_refl)). apply IH.
  intros q Hq. apply H. now right.
Qed.

Section AmountMore.
Context {rt : PyRuntime}.

(** An amount, when one is returned, is strictly positive: zero is never
    reported as an amount. *)
Theorem parse_amount_strictly_positive now text q :
  amount (parse now text) = Some q -> positive64 q = true.
Proof.
  change (amount (parse now text)) with (parse_amount text).
  apply first_amount_positive.
Qed.

(** A text whose lower-casing has no ASCII digit and no comma has no
    amount, and its record asks for clarification. *)
Theorem parse_amount_needs_digit now text :
  lacks amount_char (lower text) ->
  amount (parse now text) = None
  /\ clarification_needed (parse now text) = true.
Proof.
  intros H.
  assert (Ha : parse_amount text = None).
  { unfold parse_amount. apply first_amount_search_fail.
    intros pattern Hin. unfold search.
    apply search_from_fail with (Q := lacks amount_char);
      [apply lacks_tail_closed | | exact H].
    intros pv t Ht. now apply amount_pattern_fail. }
  split; [exact Ha|].
  rewrite clarification_parse, Ha. reflexivity.
Qed.

End AmountMore.

(** ** The bare number fallback *)

Lemma lacks_words_tail_closed words : tail_closed (lacks_words words).
Proof.
  intros c t. unfold lacks_words.
  induction words as [|w ws IH]; cbn [existsb]; [reflexivity|].
  intros H. apply orb_false_iff in H. destruct H as [Hw Hws].
  cbn [contains] in Hw. apply orb_false_iff in Hw. destruct Hw as [_ ->].
  now apply IH.
Qed.

Lemma lacks_words_starts words w t :
  lacks_words words t -> In w words -> starts_with w t = false.
Proof.
  unfold lacks_words. intros H Hin.
  rewrite <- not_true_iff_false in H.
  destruct (starts_with w t) eqn:E; [|reflexivity].
  exfalso. apply H. apply existsb_exists. exists w. split; [exact Hin|].
  destruct t; cbn [contains]; now rewrite E.
Qed.

Lemma run_lit_fail {A} (w : str) (k : cursor -> option A) s :
  starts_with w (rest s) = false -> run (lit_with N.eqb w) k s = None.
Proof.
  revert s. induction w as [|x w IH]; intros [pv t cp]; cbn [rest].
  - destruct t; discriminate.
  - cbn [lit_with fold_right run rest caps].
    fold (lit_with N.eqb w).
    destruct t as [|c t]; [reflexivity|].
    cbn [starts_with]. destruct (x =? c); [|reflexivity].
    cbn [andb]. intros H. now apply IH.
Qed.

Lemma match_at_number pv t :
  option_map group1 (match_at (Grp 1 number_re) pv t)
  = match Reference.numeric_token t with
    | [] => None
    | tok => Some tok
    end.
Proof.
  unfold match_at. cbn [run rest caps prev].
  rewrite run_number_re. cbn [rest caps prev].
  pose proof (numeric_token_prefix t) as Hp.
  destruct (Reference.numeric_token t) as [|d tok]; [reflexivity|].
  cbn [option_map]. unfold group1, group. cbn [groups assoc Nat.eqb].
  f_equal. now apply firstn_prefix_length.
Qed.

Lemma search_from_number pv t :
  option_map group1 (search_from (Grp 1 number_re) pv t) = leftmost_number t.
Proof.
  revert pv. induction t as [|c t IH]; intros pv.
  - reflexivity.
  - cbn [search_from leftmost_number].
    pose proof (match_at_number pv (c :: t)) as Hm.
    destruct (match_at (Grp 1 number_re) pv (c :: t)) as [m|];
      cbn [option_map] in Hm.
    + now destruct (Reference.numeric_token (c :: t)).
    + destruct (Reference.numeric_token (c :: t)); [apply IH|discriminate].
Qed.

Lemma glyph_pattern_fail pv t :
  lacks currency_glyph t -> match_at glyph_re pv t = None.
Proof.
  intros H. apply match_at_fail. unfold glyph_re. cbn [run rest].
  destruct t as [|c t]; [reflexivity|].
  now rewrite (lacks_head _ c t H).
Qed.

Ltac lit_fails ws Hw :=
  unfold lit;
  rewrite ?run_lit_fail
    by (apply (fun w => lacks_words_starts ws w _ Hw);
        vm_compute; repeat first [left; reflexivity | right]);
  reflexivity.

Lemma amount_patterns_eq :
  amount_patterns = [glyph_re; code_re; amount_keyword_re; Grp 1 number_re].
Proof. reflexivity. Qed.

Lemma code_pattern_fail pv t :
  lacks_words amount_words t -> match_at code_re pv t = None.
Proof.
  intros H. apply match_at_fail. unfold code_re.
  pose proof (lacks_words_tail_closed amount_words) as HQ.
  repeat match goal with
         | |- run (Cat _ _) _ _ = None =>
           apply run_cat_fail with (Q := lacks_words amount_words);
             [exact HQ | intros | cbn [rest]; assumption]
         end.
  cbn [alts run]. lit_fails amount_words H1.
Qed.

Lemma keyword_pattern_fail pv t :
  lacks_words amount_words t -> match_at amount_keyword_re pv t = None.
Proof.
  intros H. apply match_at_fail. unfold amount_keyword_re.
  cbn [alts run]. lit_fails amount_words H.
Qed.

Section BareNumber.
Context {rt : PyRuntime}.

(** When the lower-cased text has no currency glyph, no currency code and
    none of the amount keywords, the amount is decided by the leftmost
    number of the text alone: it is [float] of that number when that is
    strictly positive and absent otherwise, whatever numbers follow. *)
Theorem parse_amount_bare_number now text :
  lacks currency_glyph (lower text) ->
  lacks_words amount_words (lower text) ->
  amount (parse now text)
  = match leftmost_number (lower text) with
    | Some tok => positive_value tok
    | None => None
    end.
Proof.
  intros Hg Hw.
  change (amount (parse now text)) with (parse_amount text).
  unfold parse_amount. rewrite amount_patterns_eq.
  cbn [first_amount]. unfold search.
  rewrite (search_from_fail (lacks currency_glyph) _
             (lacks_tail_closed _) (fun pv t => glyph_pattern_fail pv t)
             _ None Hg).
  rewrite (search_from_fail (lacks_words amount_words) _
             (lacks_words_tail_closed _) (fun pv t => code_pattern_fail pv t)
             _ None Hw).
  rewrite (search_from_fail (lacks_words amount_words) _
             (lacks_words_tail_closed _)
             (fun pv t => keyword_pattern_fail pv t) _ None Hw).
  rewrite <- (search_from_number None (lower text)).
  destruct (search_from (Grp 1 number_re) None (lower text)) as [m|];
    [|reflexivity].
  cbn [option_map]. unfold positive_value.
  destruct (py_float (remove_commas (group1 m))) as [q|]; [|reflexivity].
  now destruct (positive64 q).
Qed.

End BareNumber.

(** ** Further properties of the score *)

Section Score.
Context {rt : PyRuntime}.

(** The record asks for clarification unless it has an amount and at
    least one other signal (a category hint, a date, or a description
    other than the placeholder): an amount alone scores 0.4, below the
    threshold, and an amount with a description scores exactly 0.5. *)
Theorem parse_clarification_signals now text :
  let r := parse now text in
  clarification_needed r
  = negb (Reference.present (amount r)
          && (Reference.present (category_hint r)
              || Reference.present (transaction_date r)
              || negb (str_eqb (description r) (u8 "Transaction")))).
Proof.
  intros r. unfold r.
  rewrite clarification_parse, confidence_parse, present_transaction_date.
  change (amount (parse now text)) with (parse_amount text).
  change (category_hint (parse now text)) with (extract_category_hint text).
  change (description (parse now text))
    with (extract_description text (extract_category_hint text)).
  destruct (Reference.present (parse_amount text)); [|reflexivity].
  destruct (Reference.present (extract_category_hint text)),
    (Reference.present (parse_date now text)),
    (negb (str_eqb (extract_description text (extract_category_hint text))
                   (u8 "Transaction"))); reflexivity.
Qed.

(** The confidence never reaches 1.0: with all four signals the binary64
    sum is 0.9999999999999999, so the clamp is never applied. *)
Theorem parse_confidence_below_one now text :
  (confidence (parse now text) <? 1)%float = true
  /\ (confidence (parse now text) <=? 0x1.fffffffffffffp-1)%float = true.
Proof.
  rewrite confidence_parse.
  destruct (Reference.present (parse_amount text)),
    (Reference.present (extract_category_hint text)),
    (Reference.present (parse_date now text)),
    (negb (str_eqb (extract_description text (extract_category_hint text))
                   (u8 "Transaction"))); split; reflexivity.
Qed.

(** The confidence is monotone in the four signals: a record that has
    every signal another record has is at least as confident. *)
Theorem parse_confidence_monotone now1 text1 now2 text2 :
  let r1 := parse now1 text1 in
  let r2 := parse now2 text2 in
  implb (Reference.present (amount r1)) (Reference.present (amount r2))
  = true ->
  implb (Reference.present (category_hint r1))
        (Reference.present (category_hint r2)) = true ->
  implb (Reference.present (transaction_date r1))
        (Reference.present (transaction_date r2)) = true ->
  implb (negb (str_eqb (description r1) (u8 "Transaction")))
        (negb (str_eqb (description r2) (u8 "Transaction"))) = true ->
  (confidence r1 <=? confidence r2)%float = true.
Proof.
  intros r1 r2. unfold r1, r2.
  rewrite !present_transaction_date, !confidence_parse.
  change (amount (parse now1 text1)) with (parse_amount text1).
  change (amount (parse now2 text2)) with (parse_amount text2).
  change (category_hint (parse now1 text1))
    with (extract_category_hint text1).
  change (category_hint (parse now2 text2))
    with (extract_category_hint text2).
  change (description (parse now1 text1))
    with (extract_description text1 (extract_category_hint text1)).
  change (description (parse now2 text2))
    with (extract_description text2 (extract_category_hint text2)).
  destruct (Reference.present (parse_amount text1)),
    (Reference.present (parse_amount text2)),
    (Reference.present (extract_category_hint text1)),
    (Reference.present (extract_category_hint text2)),
    (Reference.present (parse_date now1 text1)),
    (Reference.present (parse_date now2 text2)),
    (negb (str_eqb (extract_description text1 (extract_category_hint text1))
                   (u8 "Transaction"))),
    (negb (str_eqb (extract_description text2 (extract_category_hint text2))
                   (u8 "Transaction")));
    cbn [implb]; intros; try discriminate; reflexivity.
Qed.

End Score.

(** ** Further properties of the date extractor *)

Lemma keyword_date_none items now text_lower :
  lacks_words (map fst items) text_lower ->
  keyword_date items now text_lower = None.
Proof.
  unfold lacks_words.
  induction items as [|[k o] items IH]; cbn [map fst existsb keyword_date];
    [reflexivity|].
  intros H. apply orb_false_iff in H. destruct H as [-> H]. now apply IH.
Qed.

Section Dates.
Context {rt : PyRuntime}.

Lemma date_pattern_fail pattern pv t :
  In pattern date_patterns -> lacks unicode_decimal t ->
  match_at pattern pv t = None.
Proof.
  intros Hin Ht. apply match_at_fail.
  pose proof (lacks_tail_closed unicode_decimal) as HQ.
  cbn [date_patterns In] in Hin.
  destruct Hin as [<-|[<-|[<-|[<-|[]]]]]; unfold times.
  - cbn [run rest caps prev]. now apply rep_needs_head.
  - repeat match goal with
           | |- run (Cat _ _) _ _ = None =>
             apply run_cat_fail with (Q := lacks unicode_decimal);
               [exact HQ | intros | cbn [rest]; assumption]
           end.
    cbn [run]. now apply rep_needs_head.
  - cbn [run rest caps prev]. now apply rep_needs_head.
  - cbn [run rest caps prev]. now apply rep_needs_head.
Qed.

Lemma try_date_patterns_fail now text_lower patterns :
  (forall pattern, In pattern patterns -> search pattern text_lower = None) ->
  try_date_patterns now text_lower patterns = None.
Proof.
  induction patterns as [|p ps IH]; intros H; cbn [try_date_patterns];
    [reflexivity|].
  rewrite (H p (or_introl eq_refl)). apply IH.
  intros q Hq. apply H. now right.
Qed.

(** A text whose lower-casing has no relative-day keyword and no decimal
    digit has no date. *)
Theorem parse_date_needs_digit now text :
  lacks_words (map fst DATE_KEYWORDS) (lower text) ->
  lacks unicode_decimal (lower text) ->
  parse_date now text = None
  /\ transaction_date (parse now text) = None.
Proof.
  intros Hk Hd.
  assert (H : parse_date now text = None).
  { unfold parse_date. rewrite keyword_date_none by exact Hk.
    apply try_date_patterns_fail. intros pattern Hin. unfold search.
    apply search_from_fail with (Q := lacks unicode_decimal);
      [apply lacks_tail_closed | | exact Hd].
    intros pv t Ht. now apply date_pattern_fail. }
  split; [exact H|].
  unfold parse. cbn [transaction_date]. now rewrite H.
Qed.

Lemma try_formats_year now matched_str fmts d :
  try_formats now matched_str fmts = Some d ->
  year d = 1900%Z -> year now = 1900%Z.
Proof.
  induction fmts as [|fmt fmts IH]; cbn [try_formats]; [discriminate|].
  destruct (strptime matched_str fmt) as [pd|]; [|exact IH].
  destruct (year pd =? 1900)%Z eqn:E.
  - unfold replace_year.
    destruct (day pd <=? days_in_month (year now) (month pd))%Z; [|exact IH].
    intros [= <-]. cbn [year]. trivial.
  - intros [= <-] Hy. apply Z.eqb_neq in E. contradiction.
Qed.

Lemma try_date_patterns_year now text_lower patterns d :
  try_date_patterns now text_lower patterns = Some d ->
  year d = 1900%Z -> year now = 1900%Z.
Proof.
  induction patterns as [|p ps IH]; cbn [try_date_patterns]; [discriminate|].
  destruct (search p text_lower) as [m|]; [|exact IH].
  destruct (try_formats now (group0 m) date_formats) as [d'|] eqn:E;
    [|exact IH].
  intros [= <-]. now apply try_formats_year with (1 := E).
Qed.

(** An absolute date is never reported in the year 1900, unless that is
    the clock's year: whatever [strptime] returns, a parsed year 1900,
    written out or defaulted, is replaced by the current year. *)
Theorem parse_date_year_1900 now text d :
  lacks_words (map fst DATE_KEYWORDS) (lower text) ->
  parse_date now text = Some d ->
  year now <> 1900%Z ->
  year d <> 1900%Z.
Proof.
  intros Hk Hp Hn Hy. apply Hn.
  unfold parse_date in Hp. rewrite keyword_date_none in Hp by exact Hk.
  now apply try_date_patterns_year with (1 := Hp).
Qed.

End Dates.

(** ** What a group captures *)

Lemma rep_sound {A} g p (k : cursor -> option A) x :
  forall t lo hi pv cp,
    rep g p k lo hi pv cp t = Some x ->
    exists w t' pv',
      t = w ++ t' /\ forallb p w = true /\ k (Cursor pv' t' cp) = Some x.
Proof.
  induction t as [|c t IH]; intros lo hi pv cp H; cbn [rep] in H.
  - exists [], [], pv. repeat split.
    destruct lo; [|discriminate]. now destruct g, (k (Cursor pv [] cp)).
  - assert (Hmore :
      (if p c
       then match hi with
            | Some 0%nat => None
            | Some (S h) => rep g p k (Nat.pred lo) (Some h) (Some c) cp t
            | None => rep g p k (Nat.pred lo) None (Some c) cp t
            end
       else None) = Some x ->
      exists w t' pv',
        c :: t = w ++ t' /\ forallb p w = true
        /\ k (Cursor pv' t' cp) = Some x).
    { destruct (p c) eqn:Ec; [|discriminate].
      intros Hm.
      assert (Hr : exists lo' hi',
                 rep g p k lo' hi' (Some c) cp t = Some x).
      { destruct hi as [[|h]|]; [discriminate| |]; eauto. }
      destruct Hr as (lo' & hi' & Hr).
      destruct (IH _ _ _ _ Hr) as (w & t' & pv' & -> & Hw & Hk).
      exists (c :: w), t', pv'. cbn [forallb app]. now rewrite Ec, Hw. }
    assert (Hstop :
      k (Cursor pv (c :: t) cp) = Some x ->
      exists w t' pv',
        c :: t = w ++ t' /\ forallb p w = true
        /\ k (Cursor pv' t' cp) = Some x).
    { intros Hk. exists [], (c :: t), pv. now repeat split. }
    destruct lo as [|lo]; [|exact (Hmore H)].
    destruct g; unfold orelse in H.
    + destruct (if p c then _ else None) eqn:E.
      * apply Hmore. congruence.
      * now apply Hstop.
    + destruct (k (Cursor pv (c :: t) cp)) eqn:E.
      * apply Hstop. congruence.
      * now apply Hmore.
Qed.

Lemma caps_in_cons P n g cp :
  forallb P g = true -> caps_in P cp -> caps_in P ((n, g) :: cp).
Proof.
  intros Hg Hc m h [[= <- <-]|Hin]; [exact Hg | exact (Hc m h Hin)].
Qed.

Lemma forallb_weaken (p P : char -> bool) (w : str) :
  (forall c, p c = true -> P c = true) ->
  forallb p w = true -> forallb P w = true.
Proof.
  intros H. induction w as [|c w IH]; cbn [forallb]; [reflexivity|].
  intros Hw. apply andb_true_iff in Hw. destruct Hw as [Hc Hw].
  now rewrite (H c Hc), IH.
Qed.

(** A successful run hands its continuation a cursor whose captures are
    all within the class. *)
Lemma run_caps {A} P r :
  groups_over P r ->
  forall (k : cursor -> option A) s x,
    caps_in P (caps s) -> run r k s = Some x ->
    exists e, caps_in P (caps e) /\ k e = Some x.
Proof.
  induction r as [|p|a IHa b IHb|a IHa b IHb|a IHa|g lo hi p
                  |n a IHa| |w];
    intros Hg k s x Hs H; cbn [run] in H.
  - eauto.
  - destruct (rest s) as [|c t]; [discriminate|].
    destruct (p c); [|discriminate]. eexists. split; [|exact H]. exact Hs.
  - destruct Hg as [Ha Hb].
    destruct (IHa Ha _ _ _ Hs H) as (e & He & Hk).
    exact (IHb Hb _ _ _ He Hk).
  - destruct Hg as [Ha Hb]. unfold orelse in H.
    destruct (run a k s) eqn:E.
    + apply (IHa Ha k s x Hs). congruence.
    + exact (IHb Hb k s x Hs H).
  - unfold orelse in H. destruct (run a k s) eqn:E.
    + apply (IHa Hg k s x Hs). congruence.
    + eauto.
  - apply rep_sound in H. destruct H as (w & t' & pv' & _ & _ & Hk).
    eexists. split; [|exact Hk]. exact Hs.
  - destruct a; try contradiction. cbn [groups_over] in Hg.
    cbn [run] in H. apply rep_sound in H.
    destruct H as (w & t' & pv' & Hw & Hp & Hk). cbn [prev rest caps] in Hk.
    eexists. split; [|exact Hk]. cbn [caps].
    apply caps_in_cons; [|exact Hs].
    rewrite Hw, length_app, Nat.add_sub, firstn_length_app.
    now apply forallb_weaken with (p := b0).
  - eexists. split; [exact Hs|].
    repeat match type of H with
           | context [match ?y with _ => _ end] => destruct y
           end; try discriminate; exact H.
  - destruct (xorb _ _); [|discriminate]. eauto.
Qed.

Lemma match_at_caps P r pv t m :
  groups_over P r -> match_at r pv t = Some m -> caps_in P (groups m).
Proof.
  intros Hg. unfold match_at.
  destruct (run r (fun e => Some e) (Cursor pv t [])) as [e|] eqn:E;
    [|discriminate].
  intros [= <-]. cbn [groups].
  apply (run_caps P r Hg) in E; [|intros n g []].
  destruct E as (e' & He & [= ->]). exact He.
Qed.

Lemma search_from_caps P r m :
  groups_over P r ->
  forall t pv, search_from r pv t = Some m -> caps_in P (groups m).
Proof.
  intros Hg. induction t as [|c t IH]; intros pv; cbn [search_from].
  - destruct (match_at r pv []) eqn:E; [|discriminate].
    intros [= <-]. now apply match_at_caps with (2 := E).
  - destruct (match_at r pv (c :: t)) eqn:E; [|apply IH].
    intros [= <-]. now apply match_at_caps with (2 := E).
Qed.

Lemma assoc_In n cp g : assoc n cp = Some g -> In (n, g) cp.
Proof.
  induction cp as [|[m v] cp IH]; cbn [assoc]; [discriminate|].
  destruct (Nat.eqb n m) eqn:E.
  - apply Nat.eqb_eq in E. subst m. intros [= ->]. now left.
  - intros H. right. now apply IH.
Qed.

Lemma group1_caps P m : caps_in P (groups m) -> forallb P (group1 m) = true.
Proof.
  intros H. unfold group1, group.
  destruct (assoc 1 (groups m)) as [g|] eqn:E; [|reflexivity].
  exact (H _ _ (assoc_In _ _ _ E)).
Qed.

(** ** [str.strip] *)

Lemma lstrip_head s : existsb is_space (firstn 1 (lstrip s)) = false.
Proof.
  induction s as [|c s IH]; cbn [lstrip]; [reflexivity|].
  destruct (is_space c) eqn:E; [exact IH|].
  cbn [firstn existsb]. now rewrite E.
Qed.

Lemma lstrip_suffix s : exists l, s = l ++ lstrip s.
Proof.
  induction s as [|c s [l IH]]; cbn [lstrip]; [now exists []|].
  destruct (is_space c).
  - exists (c :: l). cbn [app]. now f_equal.
  - now exists [].
Qed.

Lemma forallb_lstrip P s : forallb P s = true -> forallb P (lstrip s) = true.
Proof.
  destruct (lstrip_suffix s) as [l H]. rewrite H at 1.
  rewrite forallb_app. intros E. now apply andb_true_iff in E.
Qed.

Lemma forallb_rev (P : char -> bool) (s : str) :
  forallb P (rev s) = forallb P s.
Proof.
  induction s as [|c s IH]; [reflexivity|].
  cbn [rev forallb]. rewrite forallb_app, IH. cbn [forallb].
  now rewrite andb_true_r, andb_comm.
Qed.

Lemma forallb_strip P s : forallb P s = true -> forallb P (strip s) = true.
Proof.
  intros H. unfold strip. rewrite forallb_rev.
  apply forallb_lstrip. rewrite forallb_rev. now apply forallb_lstrip.
Qed.

Lemma strip_trimmed s : trimmed (strip s).
Proof.
  unfold trimmed, strip. split.
  - pose proof (lstrip_head s) as Hh.
    destruct (lstrip_suffix (rev (lstrip s))) as [l Hl].
    set (b := lstrip (rev (lstrip s))) in *.
    apply (f_equal (@rev char)) in Hl.
    rewrite rev_involutive, rev_app_distr in Hl.
    destruct (rev b) as [|c b'] eqn:E; [reflexivity|].
    rewrite Hl in Hh. exact Hh.
  - rewrite rev_involutive. apply lstrip_head.
Qed.

(** ** Further properties of the category hint *)

Lemma hint_patterns_groups pattern {rt : PyRuntime} :
  In pattern hint_patterns -> groups_over hint_char pattern.
Proof.
  cbn [hint_patterns In].
  intros [<-|[<-|[<-|[<-|[]]]]]; cbn; repeat split; auto.
Qed.

Section Hints.
Context {rt : PyRuntime}.

Lemma first_hint_shape patterns text_lower h :
  (forall pattern, In pattern patterns -> groups_over hint_char pattern) ->
  first_hint patterns text_lower = Some h ->
  forallb hint_char h = true /\ trimmed h.
Proof.
  induction patterns as [|p ps IH]; intros Hg; cbn [first_hint];
    [discriminate|].
  assert (Hps : forall q, In q ps -> groups_over hint_char q)
    by (intros q Hq; apply Hg; now right).
  destruct (search p text_lower) as [m|] eqn:E; [|exact (IH Hps)].
  destruct (negb (is_nil (strip (group1 m)))
            && (1 <? List.length (strip (group1 m)))%nat); [|exact (IH Hps)].
  intros [= <-]. split; [|apply strip_trimmed].
  apply forallb_strip, group1_caps.
  apply search_from_caps with (2 := E). apply Hg. now left.
Qed.

Lemma category_hint_shape text h :
  extract_category_hint text = Some h ->
  (2 <= List.length h)%nat
  /\ forallb hint_char h = true
  /\ trimmed h.
Proof.
  intros H. split; [exact (first_hint_long _ _ _ H)|].
  apply (first_hint_shape hint_patterns (lower text) h);
    [intros pattern Hin; now apply hint_patterns_groups | exact H].
Qed.

(** A category hint has at least two characters, all of them lower-case
    ASCII letters, whitespace or [&], and neither starts nor ends with
    whitespace. *)
Theorem extract_category_hint_shape text h :
  extract_category_hint text = Some h ->
  (2 <= List.length h)%nat
  /\ forallb hint_char h = true
  /\ trimmed h.
Proof. exact (category_hint_shape text h). Qed.

Lemma hint_pattern_fail pattern pv t :
  In pattern hint_patterns -> lacks is_space t ->
  match_at pattern pv t = None.
Proof.
  intros Hin Ht. apply match_at_fail.
  pose proof (lacks_tail_closed is_space) as HQ.
  cbn [hint_patterns In] in Hin.
  destruct Hin as [<-|[<-|[<-|[<-|[]]]]];
    (apply run_cat_fail with (Q := lacks is_space);
     [exact HQ | intros e He | exact Ht]);
    unfold plus; cbn [run]; now apply rep_needs_head.
Qed.

Lemma first_hint_search_fail patterns text_lower :
  (forall pattern, In pattern patterns -> search pattern text_lower = None) ->
  first_hint patterns text_lower = None.
Proof.
  induction patterns as [|p ps IH]; intros H; cbn [first_hint];
    [reflexivity|].
  rewrite (H p (or_introl eq_refl)). apply IH.
  intros q Hq. apply H. now right.
Qed.

(** A text whose lower-casing has no whitespace has no category hint:
    every pattern needs whitespace after its introducing word. *)
Theorem extract_category_hint_needs_space text :
  lacks is_space (lower text) -> extract_category_hint text = None.
Proof.
  intros H. unfold extract_category_hint.
  apply first_hint_search_fail. intros pattern Hin. unfold search.
  apply search_from_fail with (Q := lacks is_space);
    [apply lacks_tail_closed | | exact H].
  intros pv t Ht. now apply hint_pattern_fail.
Qed.

End Hints.

(** ** Substitution *)

Lemma sub_from_forallb P r repl :
  forallb P repl = true ->
  forall t skip pv,
    forallb P t = true -> forallb P (sub_from r repl skip pv t) = true.
Proof.
  intros Hr. induction t as [|c t IH]; intros skip pv Ht; [reflexivity|].
  cbn [forallb] in Ht. apply andb_true_iff in Ht. destruct Ht as [Hc Ht].
  cbn [sub_from]. destruct skip as [|n]; [|now apply IH].
  destruct (match_at r pv (c :: t)) as [m|].
  - destruct (List.length (group0 m)).
    + cbn [forallb]. now rewrite Hc, IH.
    + rewrite forallb_app, Hr. now apply IH.
  - cbn [forallb]. now rewrite Hc, IH.
Qed.

Lemma sub_forallb P r repl t :
  forallb P repl = true -> forallb P t = true ->
  forallb P (sub r repl t) = true.
Proof. intros Hr Ht. unfold sub. now apply sub_from_forallb. Qed.

Lemma match_at_number_re pv t :
  match_at number_re pv t
  = match Reference.numeric_token t with
    | [] => None
    | tok => Some (RMatch tok [] (skipn (List.length tok) t))
    end.
Proof.
  unfold match_at. rewrite run_number_re.
  pose proof (numeric_token_prefix t) as Hp.
  destruct (Reference.numeric_token t) as [|d tok]; [reflexivity|].
  cbn [rest caps]. f_equal. f_equal. now apply firstn_prefix_length.
Qed.

(** Removing the numbers leaves no digit and no comma. *)
Lemma sub_number_lacks t :
  forall skip pv, lacks amount_char (sub_from number_re [] skip pv t).
Proof.
  unfold lacks.
  induction t as [|c t IH]; intros skip pv; [reflexivity|].
  cbn [sub_from]. destruct skip as [|n]; [|apply IH].
  rewrite match_at_number_re. unfold Reference.numeric_token.
  cbn [take_while drop_while].
  destruct (amount_char c) eqn:E.
  - cbn [app List.length group0]. apply IH.
  - cbn [forallb]. rewrite E. apply IH.
Qed.

Lemma hint_char_not_amount c : hint_char c = true -> amount_char c = false.
Proof.
  intros H. destruct (amount_char c) eqn:Ea; [|reflexivity].
  unfold hint_char in H. apply orb_true_iff in H.
  destruct H as [H|H].
  - apply orb_true_iff in H. destruct H as [H|H].
    + unfold ascii_lower, amount_char, ascii_digit, in_range in *.
      bool_to_prop; lia.
    + apply space_not_amount in H. congruence.
  - unfold amount_char, ascii_digit, in_range in *. bool_to_prop; lia.
Qed.

Section DescriptionDigits.
Context {rt : PyRuntime}.

Lemma remove_keywords_forallb P keywords description :
  forallb P description = true ->
  forallb P (remove_keywords keywords description) = true.
Proof.
  revert description.
  induction keywords as [|k ks IH]; intros d Hd; cbn [remove_keywords];
    [exact Hd|].
  apply IH. now apply sub_forallb.
Qed.

Lemma clean_description_lacks_amount text :
  lacks amount_char (clean_description text).
Proof.
  unfold lacks, clean_description.
  apply forallb_strip. apply sub_forallb; [reflexivity|].
  apply sub_forallb; [reflexivity|].
  apply remove_keywords_forallb.
  apply sub_forallb; [reflexivity|].
  apply sub_forallb; [reflexivity|].
  apply sub_number_lacks.
Qed.

(** The description of a record has no ASCII digit and no comma, whether
    it is the cleaned text, the category hint or the placeholder. *)
Theorem parse_description_lacks_digits now text :
  lacks amount_char (description (parse now text)).
Proof.
  change (description (parse now text))
    with (extract_description text (extract_category_hint text)).
  pose proof (clean_description_lacks_amount text) as Hc.
  unfold extract_description.
  destruct (extract_category_hint text) as [h|] eqn:E.
  - apply category_hint_shape in E. destruct E as (_ & Hh & _).
    destruct (clean_description text) as [|c d]; cbn [is_nil andb].
    + destruct h as [|x h]; cbn [is_nil negb]; [reflexivity|].
      unfold lacks. apply forallb_weaken with (p := hint_char); [|exact Hh].
      intros y Hy. now rewrite (hint_char_not_amount y Hy).
    + exact Hc.
  - destruct (clean_description text); [reflexivity | exact Hc].
Qed.

End DescriptionDigits.

(** ** Whitespace of the description *)

Lemma firstn_take_while p (s : str) :
  firstn (List.length (take_while p s)) s = take_while p s.
Proof.
  rewrite <- (take_drop_while p s) at 2. apply firstn_length_app.
Qed.

Lemma forallb_take_while p (s : str) : forallb p (take_while p s) = true.
Proof.
  induction s as [|c s IH]; cbn [take_while]; [reflexivity|].
  destruct (p c) eqn:E; [|reflexivity]. cbn [forallb]. now rewrite E.
Qed.

Lemma drop_while_head p (s : str) :
  existsb p (firstn 1 (drop_while p s)) = false.
Proof.
  induction s as [|c s IH]; cbn [drop_while]; [reflexivity|].
  destruct (p c) eqn:E; [exact IH|]. cbn [firstn existsb]. now rewrite E.
Qed.

Lemma match_at_spaces pv c t :
  match_at (plus is_space) pv (c :: t)
  = if is_space c
    then Some (RMatch (c :: take_while is_space t) []
                      (drop_while is_space t))
    else None.
Proof.
  unfold match_at, plus. cbn [run rest caps prev rep Nat.pred].
  destruct (is_space c); [|reflexivity].
  erewrite rep_star_max by reflexivity. cbn [rest caps].
  f_equal. f_equal.
  change (c :: t) with ([c] ++ t).
  rewrite <- (take_drop_while is_space t) at 1 3.
  rewrite app_assoc, length_app, Nat.add_sub.
  apply firstn_length_app.
Qed.

(** [re.sub(r'\s+', " ", t)] leaves single spaces only. *)
Lemma sub_spaces_collapsed t :
  (forall skip pv,
      forallb is_space (firstn skip t) = true ->
      existsb is_space (firstn 1 (skipn skip t)) = false ->
      collapsed (sub_from (plus is_space) (u8 " ") skip pv t) = true
      /\ existsb is_space
           (firstn 1 (sub_from (plus is_space) (u8 " ") skip pv t)) = false)
  /\ (forall pv, collapsed (sub_from (plus is_space) (u8 " ") 0 pv t) = true).
Proof.
  induction t as [|c t [IHA IHB]].
  - split; intros; [split|]; reflexivity.
  - assert (Hkeep : forall pv,
               is_space c = false ->
               collapsed (sub_from (plus is_space) (u8 " ") 0 pv (c :: t))
               = true
               /\ existsb is_space
                    (firstn 1 (sub_from (plus is_space) (u8 " ") 0 pv
                                        (c :: t))) = false).
    { intros pv E. cbn [sub_from]. rewrite match_at_spaces, E.
      cbn [collapsed firstn existsb]. rewrite E, IHB. now split. }
    split.
    + intros skip pv Hf Hs. destruct skip as [|n].
      * cbn [skipn firstn existsb] in Hs. apply orb_false_iff in Hs.
        now apply Hkeep.
      * cbn [sub_from]. cbn [firstn forallb] in Hf.
        apply andb_true_iff in Hf. now apply IHA.
    + intros pv. destruct (is_space c) eqn:E; [|now apply Hkeep].
      cbn [sub_from]. rewrite match_at_spaces, E.
      cbn [group0 List.length].
      change (u8 " ") with [32]. cbn [app collapsed].
      destruct (IHA (List.length (take_while is_space t)) (Some c)) as [H1 H2].
      * rewrite firstn_take_while. apply forallb_take_while.
      * rewrite skipn_take_while. apply drop_while_head.
      * change (sub_from (plus is_space) (u8 " ")) 
          with (sub_from (plus is_space) [32]) in *.
        now rewrite H1, H2.
Qed.

Lemma collapsed_app l r : collapsed (l ++ r) = true -> collapsed r = true.
Proof.
  induction l as [|c l IH]; cbn [app collapsed]; [trivial|].
  intros H. apply andb_true_iff in H. now apply IH.
Qed.

Lemma collapsed_prefix l r : collapsed (l ++ r) = true -> collapsed l = true.
Proof.
  induction l as [|c l IH]; cbn [app collapsed]; [reflexivity|].
  intros H. apply andb_true_iff in H. destruct H as [Hc H].
  rewrite (IH H), andb_true_r.
  destruct (is_space c); [|reflexivity].
  apply andb_true_iff in Hc. destruct Hc as [-> Hn]. cbn [andb].
  destruct l as [|d l]; [reflexivity|exact Hn].
Qed.

Lemma strip_infix s : exists l r, s = l ++ strip s ++ r.
Proof.
  destruct (lstrip_suffix s) as [l1 H1].
  destruct (lstrip_suffix (rev (lstrip s))) as [l2 H2].
  exists l1, (rev l2). unfold strip.
  rewrite <- rev_app_distr, <- H2, rev_involutive. exact H1.
Qed.

Lemma collapsed_strip s : collapsed s = true -> collapsed (strip s) = true.
Proof.
  destruct (strip_infix s) as (l & r & H). rewrite H at 1.
  intros Hc. apply collapsed_app in Hc. now apply collapsed_prefix in Hc.
Qed.

Section DescriptionSpaces.
Context {rt : PyRuntime}.

(** The cleaned text neither starts nor ends with whitespace, and its
    only whitespace is the single character U+0020, never twice in a
    row. *)
Theorem clean_description_normalised text :
  trimmed (clean_description text)
  /\ collapsed (clean_description text) = true.
Proof.
  unfold clean_description. split; [apply strip_trimmed|].
  apply collapsed_strip. unfold sub. apply sub_spaces_collapsed.
Qed.

(** The description of a record neither starts nor ends with
    whitespace. *)
Theorem parse_description_trimmed now text :
  trimmed (description (parse now text)).
Proof.
  change (description (parse now text))
    with (extract_description text (extract_category_hint text)).
  assert (Hc : trimmed (clean_description text))
    by (unfold clean_description; apply strip_trimmed).
  unfold extract_description.
  destruct (extract_category_hint text) as [h|] eqn:E.
  - apply category_hint_shape in E. destruct E as (_ & _ & Hh).
    destruct (clean_description text) as [|c d]; cbn [is_nil andb].
    + destruct h as [|x h]; cbn [is_nil negb]; [now split | exact Hh].
    + exact Hc.
  - destruct (clean_description text); [now split | exact Hc].
Qed.

End DescriptionSpaces.

(** ** Dictionaries *)

Lemma str_eqb_refl s : str_eqb s s = true.
Proof. induction s as [|c s IH]; cbn [str_eqb]; [|rewrite N.eqb_refl]; auto. Qed.

Lemma str_eqb_eq a b : str_eqb a b = true -> a = b.
Proof.
  revert b. induction a as [|x a IH]; intros [|y b]; cbn [str_eqb];
    try discriminate; [reflexivity|].
  intros H. apply andb_true_iff in H. destruct H as [Hx Ha].
  apply N.eqb_eq in Hx. now rewrite Hx, (IH b Ha).
Qed.

Lemma dict_get_set_same k v d : dict_get k (dict_set k v d) = Some v.
Proof.
  induction d as [|[k' v'] d IH]; cbn [dict_set dict_get].
  - now rewrite str_eqb_refl.
  - destruct (str_eqb k k') eqn:E; cbn [dict_get].
    + now rewrite str_eqb_refl.
    + now rewrite E.
Qed.

Lemma dict_get_set_other k k' v d :
  str_eqb k k' = false -> dict_get k (dict_set k' v d) = dict_get k d.
Proof.
  intros Hk. induction d as [|[k2 v2] d IH]; cbn [dict_set dict_get].
  - now rewrite Hk.
  - destruct (str_eqb k' k2) eqn:E; cbn [dict_get].
    + apply str_eqb_eq in E. subst k2. now rewrite Hk.
    + now rewrite IH.
Qed.

(** ** The language model service *)

Section LLM.
Context {Exn : Type}.
Variable chat : str -> list LLMService.tool_call + Exn.
Variable json_loads : str -> pyval + Exn.
Variable type_error : pyval -> Exn.
Variable str_of_exn : Exn -> str.

Local Abbreviation parse_text :=
  (LLMService.parse_transaction_text chat json_loads type_error str_of_exn).
Local Abbreviation loop := (LLMService.tool_loop json_loads type_error).

(** The loop returns at the first call named [parse_transaction]. *)
Lemma tool_loop_find text tool_calls :
  loop text tool_calls
  = match find (fun c => str_eqb (LLMService.function_name c)
                                 (u8 "parse_transaction")) tool_calls with
    | None => None
    | Some call =>
      Some match json_loads (LLMService.function_arguments call) with
           | inl (PDict d) =>
             inl (dict_set (u8 "original_input") (PStr text)
                           (dict_set (u8 "action") (PStr (u8 "CREATE")) d))
           | inl v => inr (type_error v)
           | inr e => inr e
           end
    end.
Proof.
  induction tool_calls as [|c cs IH]; cbn [LLMService.tool_loop find];
    [reflexivity|].
  destruct (str_eqb (LLMService.function_name c) (u8 "parse_transaction"));
    [|exact IH].
  destruct (json_loads (LLMService.function_arguments c)) as [[]|];
    reflexivity.
Qed.

Lemma parse_text_cases text :
  (exists tool_calls call d,
      chat (u8 "Parse this transaction: " ++ text) = inl tool_calls
      /\ find (fun c => str_eqb (LLMService.function_name c)
                                (u8 "parse_transaction")) tool_calls
         = Some call
      /\ json_loads (LLMService.function_arguments call) = inl (PDict d)
      /\ parse_text text
         = dict_set (u8 "original_input") (PStr text)
                    (dict_set (u8 "action") (PStr (u8 "CREATE")) d))
  \/ (exists error, parse_text text = LLMService.fallback text error).
Proof.
  unfold LLMService.parse_transaction_text.
  destruct (chat (u8 "Parse this transaction: " ++ text)) as [calls|e];
    [|right; eauto].
  rewrite tool_loop_find.
  destruct (find _ calls) as [call|] eqn:Ef; [|right; eauto].
  destruct (json_loads (LLMService.function_arguments call)) as [v|e] eqn:Ej;
    [|right; eauto].
  destruct v; try (right; eexists; reflexivity).
  left. exists calls, call, d. repeat split; assumption.
Qed.

(** The record is either the object the model passed to the first
    [parse_transaction] call, with [action] and [original_input] set, or
    the fall-back record: there is no third shape, and the service never
    raises. *)
Theorem parse_transaction_text_shape text :
  (exists tool_calls call d,
      chat (u8 "Parse this transaction: " ++ text) = inl tool_calls
      /\ find (fun c => str_eqb (LLMService.function_name c)
                                (u8 "parse_transaction")) tool_calls
         = Some call
      /\ json_loads (LLMService.function_arguments call) = inl (PDict d)
      /\ parse_text text
         = dict_set (u8 "original_input") (PStr text)
                    (dict_set (u8 "action") (PStr (u8 "CREATE")) d))
  \/ (exists error, parse_text text = LLMService.fallback text error).
Proof. exact (parse_text_cases text). Qed.

Lemma parse_text_metadata text :
  dict_get (u8 "action") (parse_text text) = Some (PStr (u8 "CREATE"))
  /\ dict_get (u8 "original_input") (parse_text text) = Some (PStr text).
Proof.
  destruct (parse_text_cases text)
    as [(calls & call & d & _ & _ & _ & ->)|[error ->]].
  - split.
    + rewrite dict_get_set_other by reflexivity. apply dict_get_set_same.
    + apply dict_get_set_same.
  - split; reflexivity.
Qed.

(** Whatever the model answers, the record carries [action = "CREATE"]
    and the input text as [original_input]; values the model gave for
    these two keys are overwritten. *)
Theorem parse_transaction_text_metadata text :
  dict_get (u8 "action") (parse_text text) = Some (PStr (u8 "CREATE"))
  /\ dict_get (u8 "original_input") (parse_text text) = Some (PStr text).
Proof. exact (parse_text_metadata text). Qed.

(** Every other key of the object the model passed is handed on
    unchanged. *)
Theorem parse_transaction_text_passes_keys text tool_calls call d k :
  chat (u8 "Parse this transaction: " ++ text) = inl tool_calls ->
  find (fun c => str_eqb (LLMService.function_name c)
                         (u8 "parse_transaction")) tool_calls = Some call ->
  json_loads (LLMService.function_arguments call) = inl (PDict d) ->
  str_eqb k (u8 "action") = false ->
  str_eqb k (u8 "original_input") = false ->
  dict_get k (parse_text text) = dict_get k d.
Proof.
  intros Hc Hf Hj Ha Ho. unfold LLMService.parse_transaction_text.
  rewrite Hc, tool_loop_find, Hf, Hj.
  now rewrite !dict_get_set_other by assumption.
Qed.

End LLM.

(** ** The request handler *)

Lemma to_dict_clarification r :
  get_truthy (u8 "clarification_needed") (to_dict r)
  = clarification_needed r.
Proof. reflexivity. Qed.

Lemma to_dict_amount r :
  get_truthy (u8 "amount") (to_dict r) = amount_truthy (amount r).
Proof. unfold to_dict. now destruct (amount r). Qed.

Lemma to_dict_confidence r :
  get_default (u8 "confidence") (PInt 0) (to_dict r) = PFloat (confidence r).
Proof. reflexivity. Qed.

Section Handler.
Context {rt : PyRuntime} {Backend Exn : Type}.
Variable now : datetime.
Variable chat : str -> list LLMService.tool_call + Exn.
Variable json_loads : str -> pyval + Exn.
Variable type_error : pyval -> Exn.
Variable verify_token : str -> bool + Exn.
Variable process_mcp_transaction : dict -> str -> Backend + Exn.
Variable str_of_exn : Exn -> str.

Local Abbreviation process :=
  (Main.process_transaction now chat json_loads type_error verify_token
                            process_mcp_transaction str_of_exn).
Local Abbreviation llm_parse :=
  (Main.llm_parse chat json_loads type_error str_of_exn).

(** With the local parser and an accepted token, the record is posted to
    the backend exactly when it has an amount, however low its confidence
    and even if it asks for clarification; without an amount nothing is
    posted and the caller is asked for details, with the confidence of the
    record. *)
Theorem process_transaction_local request :
  Main.use_llm request = false ->
  verify_token (Main.jwt_token request) = inl true ->
  let r := parse now (Main.req_input request) in
  process request
  = match amount r with
    | None =>
      (Main.NeedDetails (PFloat (confidence r)) (Main.req_input request),
       [Main.VerifyToken (Main.jwt_token request)])
    | Some _ =>
      (match process_mcp_transaction (to_dict r) (Main.jwt_token request) with
       | inl backend_response => Main.FromBackend backend_response
       | inr e => Main.ServerError (str_of_exn e) (Main.req_input request)
       end,
       [Main.VerifyToken (Main.jwt_token request);
        Main.PostTransaction (to_dict r) (Main.jwt_token request)])
    end.
Proof.
  intros Hu Hv r. unfold Main.process_transaction.
  rewrite Hv, Hu. fold r.
  rewrite to_dict_clarification, to_dict_amount, to_dict_confidence.
  unfold r at 1 2. rewrite clarification_parse.
  change (amount (parse now (Main.req_input request)))
    with (parse_amount (Main.req_input request)).
  pose proof (amount_truthy_present (Main.req_input request)) as Ht.
  change (amount r) with (parse_amount (Main.req_input request)).
  destruct (parse_amount (Main.req_input request)) as [q|];
    cbn [Reference.present] in *; rewrite Ht; cbn [negb andb].
  - rewrite andb_false_r.
    now destruct (process_mcp_transaction (to_dict r) (Main.jwt_token request)).
  - reflexivity.
Qed.

(** When the language model service falls back (the request failed, no
    [parse_transaction] call came back, or its arguments were not a JSON
    object), nothing is posted to the backend: the caller is asked for
    details, with confidence 0.0. *)
Theorem process_transaction_llm_fallback request error :
  Main.use_llm request = true ->
  verify_token (Main.jwt_token request) = inl true ->
  llm_parse (Main.req_input request)
  = LLMService.fallback (Main.req_input request) error ->
  process request
  = (Main.NeedDetails (PFloat 0) (Main.req_input request),
     [Main.VerifyToken (Main.jwt_token request)]).
Proof.
  intros Hu Hv Hf. unfold Main.process_transaction.
  now rewrite Hv, Hu, Hf.
Qed.

(** Whatever is posted to the backend was posted with the token of the
    request, after the backend accepted that token, and carries
    [action = "CREATE"] and the input of the request as
    [original_input]. *)
Theorem process_transaction_posts request mcp_request token :
  In (Main.PostTransaction mcp_request token) (snd (process request)) ->
  verify_token (Main.jwt_token request) = inl true
  /\ token = Main.jwt_token request
  /\ dict_get (u8 "action") mcp_request = Some (PStr (u8 "CREATE"))
  /\ dict_get (u8 "original_input") mcp_request
     = Some (PStr (Main.req_input request)).
Proof.
  unfold Main.process_transaction.
  destruct (verify_token (Main.jwt_token request)) as [[|]|e];
    cbn [snd In];
    try (intros [H|[]]; discriminate H).
  set (parsed_data := if Main.use_llm request then _ else _).
  assert (Hd : dict_get (u8 "action") parsed_data = Some (PStr (u8 "CREATE"))
               /\ dict_get (u8 "original_input") parsed_data
                  = Some (PStr (Main.req_input request))).
  { unfold parsed_data. destruct (Main.use_llm request).
    - apply parse_text_metadata.
    - split; reflexivity. }
  destruct (get_truthy (u8 "clarification_needed") parsed_data
            && negb (get_truthy (u8 "amount") parsed_data)).
  - cbn [snd In]. intros [H|[]]. discriminate H.
  - destruct (process_mcp_transaction parsed_data (Main.jwt_token request));
      cbn [snd In]; intros [H|[H|[]]]; try discriminate H;
      injection H as <- <-; now repeat split.
Qed.

End Handler.

(** ** The address of the token check *)

Lemma before_last_none sep s :
  contains sep s = false -> BackendClient.before_last sep s = None.
Proof.
  induction s as [|c s IH]; [reflexivity|].
  cbn [contains BackendClient.before_last]. intros H.
  apply orb_false_iff in H. destruct H as [Hs Hc].
  now rewrite (IH Hc), Hs.
Qed.

Lemma before_last_api p q :
  contains (u8 "/api") (u8 "api" ++ q) = false ->
  BackendClient.before_last (u8 "/api") (p ++ u8 "/api" ++ q) = Some p.
Proof.
  intros H. induction p as [|c p IH].
  - change ([] ++ u8 "/api" ++ q) with (47 :: (u8 "api" ++ q)).
    cbn [BackendClient.before_last].
    now rewrite (before_last_none _ _ H).
  - cbn [app BackendClient.before_last]. now rewrite IH.
Qed.

(** The token is checked at the backend address cut after its last
    "/api", followed by "/auth/verify": whatever the configured address
    has after that "/api" is dropped, and an address that ends in "/api"
    is extended by "/auth/verify". *)
Theorem verify_url_api p q :
  contains (u8 "/api") (u8 "api" ++ q) = false ->
  BackendClient.verify_url (p ++ u8 "/api" ++ q)
  = p ++ u8 "/api/auth/verify".
Proof.
  intros H. unfold BackendClient.verify_url, BackendClient.rsplit_head.
  now rewrite before_last_api.
Qed.

(** An address without "/api" is extended by "/api/auth/verify". *)
Theorem verify_url_plain base_url :
  contains (u8 "/api") base_url = false ->
  BackendClient.verify_url base_url = base_url ++ u8 "/api/auth/verify".
Proof.
  intros H. unfold BackendClient.verify_url, BackendClient.rsplit_head.
  now rewrite before_last_none.
Qed.

(** ** The parser never raises *)

Lemma assoc_cons_some n m g cp :
  assoc n cp <> None -> assoc n ((m, g) :: cp) <> None.
Proof. cbn [assoc]. now destruct (Nat.eqb n m). Qed.

(** A group that is set stays set. *)
Lemma run_keeps {A} n r :
  forall (k : cursor -> option A) s x,
    run r k s = Some x ->
    exists e, k e = Some x
              /\ (assoc n (caps s) <> None -> assoc n (caps e) <> None).
Proof.
  induction r as [|p|a IHa b IHb|a IHa b IHb|a IHa|g lo hi p
                  |m a IHa| |w];
    intros k s x H; cbn [run] in H.
  - eauto.
  - destruct (rest s) as [|c t]; [discriminate|].
    destruct (p c); [|discriminate]. eexists. split; [exact H|]. trivial.
  - destruct (IHa _ _ _ H) as (e1 & H1 & K1).
    destruct (IHb _ _ _ H1) as (e & H2 & K2). eauto.
  - unfold orelse in H. destruct (run a k s) eqn:E.
    + apply (IHa k s x). congruence.
    + exact (IHb k s x H).
  - unfold orelse in H. destruct (run a k s) eqn:E.
    + apply (IHa k s x). congruence.
    + eauto.
  - apply rep_sound in H. destruct H as (w & t' & pv' & _ & _ & Hk).
    eexists. split; [exact Hk|]. trivial.
  - destruct (IHa _ _ _ H) as (e & He & Ke). cbn beta in He.
    eexists. split; [exact He|]. cbn [caps]. intros Hs.
    apply assoc_cons_some. now apply Ke.
  - exists s. split; [|trivial].
    repeat match type of H with
           | context [match ?y with _ => _ end] => destruct y
           end; try discriminate; exact H.
  - destruct (xorb _ _); [|discriminate]. eauto.
Qed.

(** A pattern that binds group [n] hands over a cursor with the group
    set. *)
Lemma run_binds {A} n r :
  binds n r = true ->
  forall (k : cursor -> option A) s x,
    run r k s = Some x ->
    exists e, k e = Some x /\ assoc n (caps e) <> None.
Proof.
  induction r as [|p|a IHa b IHb|a IHa b IHb|a IHa|g lo hi p
                  |m a IHa| |w];
    cbn [binds]; try discriminate; intros Hb k s x H; cbn [run] in H.
  - apply orb_true_iff in Hb. destruct Hb as [Hb|Hb].
    + destruct (IHa Hb _ _ _ H) as (e1 & H1 & K1).
      destruct (run_keeps n b _ _ _ H1) as (e & H2 & K2). eauto.
    + destruct (run_keeps n a _ _ _ H) as (e1 & H1 & _).
      exact (IHb Hb _ _ _ H1).
  - apply andb_true_iff in Hb. destruct Hb as [Ha Hb].
    unfold orelse in H. destruct (run a k s) eqn:E.
    + apply (IHa Ha k s x). congruence.
    + exact (IHb Hb k s x H).
  - destruct (Nat.eqb n m) eqn:E.
    + destruct (run_keeps n a _ _ _ H) as (e & He & _). cbn beta in He.
      eexists. split; [exact He|]. cbn [caps assoc]. now rewrite E.
    + cbn [orb] in Hb. destruct (IHa Hb _ _ _ H) as (e & He & Ke).
      cbn beta in He. eexists. split; [exact He|]. cbn [caps].
      now apply assoc_cons_some.
Qed.

Lemma search_from_binds n r m :
  binds n r = true ->
  forall t pv, search_from r pv t = Some m -> group n m <> None.
Proof.
  intros Hb.
  assert (Hm : forall pv t, match_at r pv t = Some m -> group n m <> None).
  { intros pv t. unfold match_at.
    destruct (run r (fun e => Some e) (Cursor pv t [])) as [e|] eqn:E;
      [|discriminate].
    intros [= <-]. unfold group. cbn [groups].
    destruct (run_binds n r Hb _ _ _ E) as (e' & [= ->] & He). exact He. }
  induction t as [|c t IH]; intros pv; cbn [search_from].
  - destruct (match_at r pv []) eqn:E; [|discriminate].
    intros [= <-]. exact (Hm _ _ E).
  - destruct (match_at r pv (c :: t)) eqn:E; [|apply IH].
    intros [= <-]. exact (Hm _ _ E).
Qed.

Lemma group1_method_returns f r text_lower m :
  binds 1 r = true -> search r text_lower = Some m ->
  Raising.group1_method f m = Raising.Returns (f (group1 m)).
Proof.
  intros Hb Hs. apply (search_from_binds 1 r m Hb) in Hs.
  unfold Raising.group1_method, group1.
  now destruct (group 1 m).
Qed.

Section NeverRaises.
Context {rt : PyRuntime}.

Lemma first_amount_returns patterns text_cleaned :
  forallb (binds 1) patterns = true ->
  Raising.first_amount patterns text_cleaned
  = Raising.Returns (first_amount patterns text_cleaned).
Proof.
  induction patterns as [|p ps IH]; cbn [forallb]; [reflexivity|].
  intros H. apply andb_true_iff in H. destruct H as [Hp Hps].
  cbn [Raising.first_amount first_amount].
  destruct (search p text_cleaned) as [m|] eqn:E; [|exact (IH Hps)].
  rewrite (group1_method_returns remove_commas p text_cleaned m Hp E).
  unfold Raising.float_of.
  destruct (py_float (remove_commas (group1 m))) as [x|]; [|exact (IH Hps)].
  destruct (positive64 x); [reflexivity | exact (IH Hps)].
Qed.

Lemma first_hint_returns patterns text_lower :
  forallb (binds 1) patterns = true ->
  Raising.first_hint patterns text_lower
  = Raising.Returns (first_hint patterns text_lower).
Proof.
  induction patterns as [|p ps IH]; cbn [forallb]; [reflexivity|].
  intros H. apply andb_true_iff in H. destruct H as [Hp Hps].
  cbn [Raising.first_hint first_hint].
  destruct (search p text_lower) as [m|] eqn:E; [|exact (IH Hps)].
  rewrite (group1_method_returns strip p text_lower m Hp E).
  destruct (negb (is_nil (strip (group1 m)))
            && (1 <? List.length (strip (group1 m)))%nat);
    [reflexivity | exact (IH Hps)].
Qed.

Lemma try_formats_returns now matched_str fmts :
  Raising.try_formats now matched_str fmts
  = Raising.Returns (try_formats now matched_str fmts).
Proof.
  induction fmts as [|fmt fmts IH];
    cbn [Raising.try_formats try_formats]; [reflexivity|].
  unfold Raising.try_format, Raising.strptime_of, Raising.replace_year_of.
  destruct (strptime matched_str fmt) as [d|]; [|exact IH].
  destruct (year d =? 1900)%Z; [|reflexivity].
  destruct (replace_year d (year now)); [reflexivity | exact IH].
Qed.

Lemma try_date_patterns_returns now text_lower patterns :
  Raising.try_date_patterns now text_lower patterns
  = Raising.Returns (try_date_patterns now text_lower patterns).
Proof.
  induction patterns as [|p ps IH];
    cbn [Raising.try_date_patterns try_date_patterns]; [reflexivity|].
  destruct (search p text_lower) as [m|]; [|exact IH].
  rewrite try_formats_returns.
  destruct (try_formats now (group0 m) date_formats); [reflexivity|exact IH].
Qed.

(** C4. [parse] never raises: with every raise site written out
    ([float], [strptime], [replace], and the method calls on
    [match.group(1)], which is never [None] after a match), it returns,
    for every clock and every input, the record of the embedding used
    throughout.  On the empty string the amount is absent,
    [clarification_needed] is true and the description is the
    placeholder. *)
Theorem parse_never_raises :
  (forall now text, Raising.parse now text = Raising.Returns (parse now text))
  /\ (forall now,
         amount (parse now []) = None
         /\ clarification_needed (parse now []) = true
         /\ description (parse now []) = u8 "Transaction").
Proof.
  split.
  - intros now text. unfold Raising.parse.
    unfold Raising.parse_amount, Raising.parse_date,
      Raising.extract_category_hint.
    rewrite first_amount_returns by reflexivity.
    rewrite try_date_patterns_returns.
    rewrite first_hint_returns by reflexivity.
    fold (parse_amount text). fold (extract_category_hint text).
    unfold parse, parse_date.
    now destruct (keyword_date DATE_KEYWORDS now (lower text)).
  - intros now.
    assert (Ha : parse_amount [] = None).
    { unfold parse_amount. rewrite lower_empty. reflexivity. }
    assert (Hh : extract_category_hint [] = None).
    { unfold extract_category_hint. rewrite lower_empty. reflexivity. }
    repeat split.
    + exact Ha.
    + rewrite clarification_parse, Ha. reflexivity.
    + change (description (parse now []))
        with (extract_description [] (extract_category_hint [])).
      rewrite Hh. unfold extract_description.
      rewrite clean_description_nil. reflexivity.
Qed.

End NeverRaises.

(** ** Examples and witnesses *)

Module Examples.
Import CRuntime.

(** "Add ₹1200 for groceries today" *)
Example parse_groceries :
  let r := run_parse "Add ₹1200 for groceries today" in
  amount r = Some (Prim2SF 1200)
  /\ type r = u8 "EXPENSE"
  /\ transaction_date r = Some (u8 "2026-11-03")
  /\ category_hint r = Some (u8 "groceries")
  /\ description r = u8 "Add groceries"
  /\ clarification_needed r = false.
Proof. vm_compute. repeat split. Qed.

(** "Received ₹30000 salary" *)
Example parse_salary :
  let r := run_parse "Received ₹30000 salary" in
  amount r = Some (Prim2SF 30000) /\ type r = u8 "INCOME".
Proof. vm_compute. repeat split. Qed.

(** The order in which the keyword sets are iterated shows in the
    description: "received" removed first leaves "money", "received money"
    removed first leaves nothing. *)
Example description_depends_on_set_order :
  description (run_parse "received money") = u8 "money"
  /\ description (parse (rt := runtime_reversed) clock (u8 "received money"))
     = u8 "Transaction".
Proof. vm_compute. split; reflexivity. Qed.

(** Witness of C2. *)
Lemma parse_amount_glyph_number_witness :
  amount (run_parse "Add ₹1,200.50 for groceries") = Some (Prim2SF 1200.5).
Proof.
  apply (parse_amount_glyph_number (rt := runtime) clock
           (u8 "Add ₹1,200.50 for groceries") (u8 "1,200.50")
           (Prim2SF 1200.5)); vm_compute; reflexivity.
Defined.

(** Counterexample to C2 as stated.  The input "$0 $5" contains "$5", a
    glyph immediately followed by the positive number 5, and no amount is
    returned, because the leftmost glyph is followed by 0.  The input
    "₹9007199254740993" gets the amount 9007199254740992.0, the binary64
    nearest to the number, not the number. *)
Lemma glyph_amount_counterexample :
  (amount (run_parse "$0 $5") = None
   /\ ~ glyph_amount_claim (rt := runtime) clock (u8 "$0 $5"))
  /\ (amount (run_parse "₹9007199254740993")
      = Some (Prim2SF 0x1.0000000000000p+53)
      /\ ~ glyph_amount_claim (rt := runtime) clock
            (u8 "₹9007199254740993")).
Proof.
  split; (split; [vm_compute; reflexivity|]); intros H.
  - specialize (H (u8 "$0 ") 36 [] (u8 "5") [] (5 # 1)
                  eq_refl eq_refl eq_refl eq_refl eq_refl eq_refl).
    destruct H as (y & v & Hy & _). vm_compute in Hy. discriminate Hy.
  - specialize (H [] 8377 [] (u8 "9007199254740993") []
                  (9007199254740993 # 1)
                  eq_refl eq_refl eq_refl eq_refl eq_refl eq_refl).
    destruct H as (y & v & Hy & Hv & Hq).
    vm_compute in Hy. injection Hy as <-.
    vm_compute in Hv. injection Hv as <-.
    vm_compute in Hq. discriminate Hq.
Qed.

(** Witness of C10: one fractional digit, and three. *)
Lemma parse_amount_fraction_digits_witness :
  amount (run_parse "paid ₹ 50.9 today") = Some (Prim2SF 50)
  /\ amount (run_parse "paid ₹1,050.999 today")
     = Some (Prim2SF 0x1.06bf5c28f5c29p+10).
Proof.
  split.
  - apply (parse_amount_fraction_digits (rt := runtime) clock
             (u8 "paid ₹ 50.9 today") (u8 "paid ") 8377 (u8 " ") (u8 "50")
             (u8 "9") (u8 " today") (Prim2SF 50));
      first [discriminate | vm_compute; reflexivity].
  - apply (parse_amount_fraction_digits (rt := runtime) clock
             (u8 "paid ₹1,050.999 today") (u8 "paid ") 8377 [] (u8 "1,050")
             (u8 "999") (u8 " today") (Prim2SF 0x1.06bf5c28f5c29p+10));
      first [discriminate | vm_compute; reflexivity].
Defined.

(** Counterexample to C10 as stated.  Of the three fractional digits of
    "₹50.999" two are kept, and the amount is the binary64 50.99, not 50.
    With one fractional digit, "₹9007199254740993.9" gets
    9007199254740992.0, the binary64 nearest to the integer part, not the
    integer part. *)
Lemma fraction_dropped_counterexample :
  (amount (run_parse "₹50.999") = Some (Prim2SF 0x1.97eb851eb851fp+5)
   /\ ~ fraction_dropped_claim (rt := runtime) clock (u8 "₹50.999"))
  /\ (amount (run_parse "₹9007199254740993.9")
      = Some (Prim2SF 0x1.0000000000000p+53)
      /\ ~ fraction_dropped_claim (rt := runtime) clock
            (u8 "₹9007199254740993.9")).
Proof.
  split; (split; [vm_compute; reflexivity|]); intros H.
  - specialize (H [] 8377 (u8 "50") (u8 "999") [] eq_refl eq_refl).
    assert (Hne : u8 "50" <> []) by discriminate.
    specialize (H Hne eq_refl eq_refl).
    assert (Hl : List.length (u8 "999") <> 2%nat) by discriminate.
    specialize (H Hl eq_refl).
    destruct H as (y & v & Hy & Hv & Hq).
    vm_compute in Hy. injection Hy as <-.
    vm_compute in Hv. injection Hv as <-.
    vm_compute in Hq. discriminate Hq.
  - specialize (H [] 8377 (u8 "9007199254740993") (u8 "9") []
                  eq_refl eq_refl).
    assert (Hne : u8 "9007199254740993" <> []) by discriminate.
    specialize (H Hne eq_refl eq_refl).
    assert (Hl : List.length (u8 "9") <> 2%nat) by discriminate.
    specialize (H Hl eq_refl).
    destruct H as (y & v & Hy & Hv & Hq).
    vm_compute in Hy. injection Hy as <-.
    vm_compute in Hv. injection Hv as <-.
    vm_compute in Hq. discriminate Hq.
Qed.

(** Witness of C6: "now" inside "know". *)
Lemma parse_date_relative_keyword_witness :
  parse_date (rt := runtime) clock (u8 "I know it was 2024-01-15")
  = Some clock
  /\ parse_date (rt := runtime) clock (u8 "dinner last night")
     = Some (DateTime 2026 11 2).
Proof.
  split.
  - apply (parse_date_relative_keyword (rt := runtime) clock
             (u8 "I know it was 2024-01-15") (u8 "now") 0%Z).
    reflexivity.
  - apply (parse_date_relative_keyword (rt := runtime) clock
             (u8 "dinner last night") (u8 "last night") (-1)%Z).
    reflexivity.
Defined.

(** Without a keyword the absolute-date patterns decide. *)
Example parse_date_absolute :
  parse_date (rt := runtime) clock (u8 "lunch on 15 January")
  = Some (DateTime 2026 1 15)
  /\ parse_date (rt := runtime) clock (u8 "rent 2024-02-29")
     = Some (DateTime 2024 2 29)
  /\ parse_date (rt := runtime) clock (u8 "lunch 29 feb") = None.
Proof. vm_compute. repeat split. Qed.

(** *** Witnesses of the further properties *)

Lemma parse_amount_strictly_positive_witness :
  positive64 (Prim2SF 1200) = true.
Proof.
  apply (parse_amount_strictly_positive (rt := runtime) clock
           (u8 "Add ₹1200 for groceries today") (Prim2SF 1200)).
  vm_compute. reflexivity.
Defined.

Lemma parse_amount_needs_digit_witness :
  amount (run_parse "coffee with Ana") = None
  /\ clarification_needed (run_parse "coffee with Ana") = true.
Proof.
  apply (parse_amount_needs_digit (rt := runtime) clock
           (u8 "coffee with Ana")).
  reflexivity.
Defined.

(** The leftmost number wins, also when it is not the price. *)
Lemma parse_amount_bare_number_witness :
  amount (run_parse "3 lattes 250") = Some (Prim2SF 3).
Proof.
  unfold run_parse.
  rewrite (parse_amount_bare_number (rt := runtime) clock
             (u8 "3 lattes 250") eq_refl eq_refl).
  reflexivity.
Defined.

Lemma parse_confidence_monotone_witness :
  (confidence (run_parse "lunch") <=? confidence (run_parse "lunch 250"))%float
  = true.
Proof.
  apply (parse_confidence_monotone (rt := runtime) clock (u8 "lunch")
           clock (u8 "lunch 250")); reflexivity.
Defined.

Lemma parse_date_needs_digit_witness :
  parse_date (rt := runtime) clock (u8 "coffee with Ana") = None
  /\ transaction_date (run_parse "coffee with Ana") = None.
Proof.
  apply (parse_date_needs_digit (rt := runtime) clock
           (u8 "coffee with Ana")); reflexivity.
Defined.

(** A year 1900 written out is replaced by the current year. *)
Lemma parse_date_year_1900_witness :
  parse_date (rt := runtime) clock (u8 "rent 1900-02-10")
  = Some (DateTime 2026 2 10)
  /\ year (DateTime 2026 2 10) <> 1900%Z.
Proof.
  split; [reflexivity|].
  apply (parse_date_year_1900 (rt := runtime) clock (u8 "rent 1900-02-10")
           (DateTime 2026 2 10)); [reflexivity | reflexivity | discriminate].
Defined.

Lemma extract_category_hint_shape_witness :
  (2 <= List.length (u8 "team lunch"))%nat
  /\ forallb hint_char (u8 "team lunch") = true
  /\ trimmed (u8 "team lunch").
Proof.
  apply (extract_category_hint_shape (rt := runtime)
           (u8 "Paid 50 for  team lunch  today")).
  reflexivity.
Defined.

Lemma extract_category_hint_needs_space_witness :
  extract_category_hint (rt := runtime) (u8 "for/groceries") = None.
Proof.
  apply (extract_category_hint_needs_space (rt := runtime)
           (u8 "for/groceries")).
  reflexivity.
Defined.

(** The model's [category_hint] is handed on; its [action] is not. *)
Lemma parse_transaction_text_passes_keys_witness :
  let r := LLMService.parse_transaction_text
             Scenario.chat_answers Scenario.json_loads Scenario.type_error
             (fun e => e) (u8 "1200 for groceries") in
  dict_get (u8 "category_hint") r = Some (PStr (u8 "groceries"))
  /\ dict_get (u8 "action") r = Some (PStr (u8 "CREATE")).
Proof.
  split; [|reflexivity].
  rewrite (parse_transaction_text_passes_keys
             Scenario.chat_answers Scenario.json_loads Scenario.type_error
             (fun e => e) (u8 "1200 for groceries") _
             (LLMService.ToolCall (u8 "parse_transaction") (u8 "{...}"))
             Scenario.model_object (u8 "category_hint")
             eq_refl eq_refl eq_refl eq_refl eq_refl).
  reflexivity.
Defined.

(** A record that asks for clarification is posted all the same when it
    has an amount. *)
Lemma process_transaction_local_witness :
  clarification_needed (run_parse "Received ₹30000 salary") = true
  /\ Scenario.handler Scenario.chat_down
       (Scenario.request "Received ₹30000 salary" false)
     = (Main.FromBackend (u8 "created"),
        [Main.VerifyToken (u8 "good");
         Main.PostTransaction (to_dict (run_parse "Received ₹30000 salary"))
                              (u8 "good")]).
Proof.
  split; [reflexivity|].
  unfold Scenario.handler.
  rewrite (process_transaction_local (rt := runtime) clock
             Scenario.chat_down Scenario.json_loads Scenario.type_error
             Scenario.verify_token Scenario.process_mcp_transaction
             (fun e => e) (Scenario.request "Received ₹30000 salary" false)
             eq_refl eq_refl).
  reflexivity.
Defined.

Lemma process_transaction_llm_fallback_witness :
  Scenario.handler Scenario.chat_down
    (Scenario.request "Add ₹1200 for groceries today" true)
  = (Main.NeedDetails (PFloat 0)
                      (u8 "Add ₹1200 for groceries today"),
     [Main.VerifyToken (u8 "good")]).
Proof.
  unfold Scenario.handler.
  rewrite (process_transaction_llm_fallback (rt := runtime) clock
             Scenario.chat_down Scenario.json_loads Scenario.type_error
             Scenario.verify_token Scenario.process_mcp_transaction
             (fun e => e)
             (Scenario.request "Add ₹1200 for groceries today" true)
             (u8 "Connection error.") eq_refl eq_refl eq_refl).
  reflexivity.
Defined.

Lemma process_transaction_posts_witness :
  let request := Scenario.request "1200 for groceries" true in
  let posted :=
      dict_set (u8 "original_input") (PStr (u8 "1200 for groceries"))
               (dict_set (u8 "action") (PStr (u8 "CREATE"))
                         Scenario.model_object) in
  Scenario.verify_token (Main.jwt_token request) = inl true
  /\ u8 "good" = Main.jwt_token request
  /\ dict_get (u8 "action") posted = Some (PStr (u8 "CREATE"))
  /\ dict_get (u8 "original_input") posted
     = Some (PStr (Main.req_input request)).
Proof.
  intros request posted.
  apply (process_transaction_posts (rt := runtime) clock
           Scenario.chat_answers Scenario.json_loads Scenario.type_error
           Scenario.verify_token Scenario.process_mcp_transaction
           (fun e => e) request posted (u8 "good")).
  right. left. reflexivity.
Defined.

(** The default address, and one with a version after "/api". *)
Lemma verify_url_api_witness :
  BackendClient.verify_url (u8 "http://localhost:8080/api")
  = u8 "http://localhost:8080/api/auth/verify"
  /\ BackendClient.verify_url (u8 "https://api.example.com/api/v2")
     = u8 "https://api.example.com/api/auth/verify".
Proof.
  split.
  - apply (verify_url_api (u8 "http://localhost:8080") []). reflexivity.
  - apply (verify_url_api (u8 "https://api.example.com") (u8 "/v2")).
    reflexivity.
Defined.

Lemma verify_url_plain_witness :
  BackendClient.verify_url (u8 "http://backend:8080")
  = u8 "http://backend:8080/api/auth/verify".
Proof. apply (verify_url_plain (u8 "http://backend:8080")). reflexivity. Defined.

(** [float] rounds to the nearest binary64, overflows to infinity and
    rejects a text without digits. *)
Example py_float_rounds :
  py_float (u8 "9007199254740993") = Some (Prim2SF 0x1.0000000000000p+53)
  /\ py_float (u8 "50.99") = Some (Prim2SF 0x1.97eb851eb851fp+5)
  /\ py_float (u8 "5.") = Some (Prim2SF 5)
  /\ py_float (u8 ".50") = Some (Prim2SF 0.5)
  /\ py_float (repeat 57%N 400) = Some (S754_infinity false)
  /\ py_float [] = None
  /\ py_float (u8 ".") = None.
Proof. repeat split; vm_compute; reflexivity. Qed.

(** The batch over the deterministic parser: the element at index 1 is
    the record of the second input. *)
Example parse_batch_local :
  nth_error
    (fst (LLMService.parse_transaction_batch
            (fun (w : unit) t => (parse (rt := runtime) clock t, w)) tt
            [u8 "tea 10"; u8 "Add ₹1200 for groceries today"; u8 ""])) 1
  = Some (run_parse "Add ₹1200 for groceries today").
Proof. reflexivity. Qed.

(** Counterexample to C7 as stated.  The remote model answers the first
    completion request and is unreachable afterwards.  Parsed alone,
    "bus 20" gets the record the model passed; as the second input of a
    batch it gets the fall-back record with the connection error. *)
Lemma batch_equals_single_counterexample :
  let inputs := [u8 "tea 10"; u8 "bus 20"; u8 "rent 30"] in
  nth_error
    (fst (LLMService.parse_transaction_batch
            Scenario.parse_transaction_text 0%nat inputs)) 1
  = Some (LLMService.fallback (u8 "bus 20") (u8 "Connection error."))
  /\ fst (Scenario.parse_transaction_text 0%nat (u8 "bus 20"))
     = dict_set (u8 "original_input") (PStr (u8 "bus 20"))
                (dict_set (u8 "action") (PStr (u8 "CREATE"))
                          Scenario.model_object)
  /\ ~ batch_equals_single_claim Scenario.parse_transaction_text 0%nat inputs.
Proof.
  cbv zeta. split; [vm_compute; reflexivity|].
  split; [vm_compute; reflexivity|].
  intros H. specialize (H 1%nat (u8 "bus 20") eq_refl).
  vm_compute in H. discriminate H.
Qed.

(** A batch whose first request carries a rejected token: the request
    gives a failure entry and the one after it is processed. *)
Example batch_process_transactions_goes_on (str_of_exn : unit -> str) :
  fst (Main.batch_process_transactions_in
         Scenario.process_transaction Main.req_input str_of_exn 0%nat
         [ {| Main.req_input := u8 "lunch 200";
              Main.jwt_token := u8 "expired";
              Main.use_llm := false |};
           Scenario.request "Add ₹1200 for groceries today" false ])
  = [ Main.Failed (str_of_exn tt) (u8 "lunch 200");
      Main.Processed (Main.FromBackend (u8 "created")) ].
Proof. vm_compute. reflexivity. Qed.

End Examples.
